(** * ZKONTROL secure communications: the server and its storage layer

    A shallow embedding of [server.js] (the HTTP authentication routes, the
    Socket.io event handlers and the expiry sweep job), of
    [server/storage.js] (class [DatabaseStorage]) and of the tables of
    [shared/schema.js], followed by the properties of the specification
    that are stated about them.

    Conventions of the embedding:
    - timestamps ([Date.now()], [new Date()], the database's [defaultNow()])
      are integers, milliseconds since the epoch, and are passed to the
      operation that reads the clock;
    - [Math.random()] is an input of the route that calls it;
    - the relational tables are lists of rows in insertion order, with the
      [serial] counter of each table next to it;
    - an [await]ed promise that rejects and a JavaScript exception are the
      same [Throw] outcome; the handlers run to completion one at a time;
    - the identifiers that a handler has passed through [parseInt] are
      integers here, and so is the [roomId] of [typing] and
      [stop_typing], whose room name is its [toString()];
    - the database answers: a statement is rejected only by a constraint
      of the schema ([references], [unique]), and a rejected statement
      changes nothing. The [serial] identifiers are never reused, so
      the primary keys need no check. *)

From stdpp Require Import gmap strings list fin_maps sorting pretty.

Local Open Scope Z_scope.

(** ** shared/schema.js *)

Module Schema.

(** [users]: [username] is nullable, [walletAddress] is unique. *)
Record User := mkUser {
  u_id : Z;
  u_username : option string;
  u_walletAddress : string;
  u_createdAt : Z
}.

(** [rooms]: [createdBy] is a nullable reference to [users.id]. *)
Record Room := mkRoom {
  r_id : Z;
  r_name : string;
  r_isGroup : bool;
  r_isPublic : bool;
  r_createdBy : option Z;
  r_createdAt : Z
}.

(** [room_members]: both references are [notNull]. *)
Record RoomMember := mkRoomMember {
  rm_id : Z;
  rm_roomId : Z;
  rm_userId : Z;
  rm_joinedAt : Z
}.

(** [messages]: [expiresAt] is the only nullable column. *)
Record Message := mkMessage {
  m_id : Z;
  m_roomId : Z;
  m_userId : Z;
  m_content : string;
  m_createdAt : Z;
  m_expiresAt : option Z
}.

(** [reactions]. *)
Record Reaction := mkReaction {
  re_id : Z;
  re_messageId : Z;
  re_userId : Z;
  re_emoji : string;
  re_createdAt : Z
}.

(** The database: five tables and the [serial] sequence of each (the
    next identifier it hands out). *)
Record Db := mkDb {
  users : list User;
  users_seq : Z;
  rooms : list Room;
  rooms_seq : Z;
  roomMembers : list RoomMember;
  roomMembers_seq : Z;
  messages : list Message;
  messages_seq : Z;
  reactions : list Reaction;
  reactions_seq : Z
}.

Definition empty_db : Db :=
  mkDb [] 1 [] 1 [] 1 [] 1 [] 1.

(** Referenced keys, as the [references(() => ...)] clauses use them. *)
Definition user_exists (db : Db) (id : Z) : bool :=
  existsb (fun u => u_id u =? id) (users db).
Definition room_exists (db : Db) (id : Z) : bool :=
  existsb (fun r => r_id r =? id) (rooms db).
Definition message_exists (db : Db) (id : Z) : bool :=
  existsb (fun m => m_id m =? id) (messages db).

End Schema.
Export Schema.

(** ** Outcomes of a database statement or of a block under [try] *)

Inductive Res (A : Type) : Type :=
| Ret (a : A)
| Throw (err : string).
Arguments Ret {A} a.
Arguments Throw {A} err.

(** ** server/storage.js: class DatabaseStorage *)

Module Storage.

(** [const [x] = rows; return x || undefined]. *)
Definition first_row {A} (rows : list A) : option A := head rows.

Definition getUser (db : Db) (id : Z) : option User :=
  first_row (List.filter (fun u => u_id u =? id) (users db)).

Definition getUserByWallet (db : Db) (walletAddress : string) : option User :=
  first_row (List.filter (fun u => String.eqb (u_walletAddress u) walletAddress) (users db)).

(** [insert(users).values({walletAddress, username}).returning()]; the
    [unique] constraint on [wallet_address] rejects a second row for the
    same wallet. *)
Definition createUser (now : Z) (walletAddress : string)
    (username : option string) (db : Db) : Res User * Db :=
  if existsb (fun u => String.eqb (u_walletAddress u) walletAddress) (users db)
  then (Throw "duplicate key value violates unique constraint", db)
  else
    let user := mkUser (users_seq db) username walletAddress now in
    (Ret user,
     mkDb (users db ++ [user]) (users_seq db + 1)
          (rooms db) (rooms_seq db)
          (roomMembers db) (roomMembers_seq db)
          (messages db) (messages_seq db)
          (reactions db) (reactions_seq db)).

Definition getRoom (db : Db) (id : Z) : option Room :=
  first_row (List.filter (fun r => r_id r =? id) (rooms db)).

(** The inner join of [room_members] with [rooms] on
    [roomMembers.roomId = rooms.id], restricted by a predicate on the
    pair; each joined row is projected on its room. *)
Definition join_members_rooms (db : Db)
    (keep : RoomMember -> Room -> bool) : list Room :=
  flat_map (fun rm =>
    List.filter (fun r => (rm_roomId rm =? r_id r) && keep rm r) (rooms db))
    (roomMembers db).

Definition getUserRooms (db : Db) (userId : Z) : list Room :=
  join_members_rooms db (fun rm _ => rm_userId rm =? userId).

(** [insert(rooms).values(insertRoom).returning()]: [isPublic] is given
    only by [ensurePublicRoom]; [createdBy] must reference a user. *)
Definition insertRoom (now : Z) (name : string) (isGroup isPublic : bool)
    (createdBy : option Z) (db : Db) : Res Room * Db :=
  if match createdBy with
     | Some uid => user_exists db uid
     | None => true
     end
  then
    let room := mkRoom (rooms_seq db) name isGroup isPublic createdBy now in
    (Ret room,
     mkDb (users db) (users_seq db)
          (rooms db ++ [room]) (rooms_seq db + 1)
          (roomMembers db) (roomMembers_seq db)
          (messages db) (messages_seq db)
          (reactions db) (reactions_seq db))
  else (Throw "violates foreign key constraint", db).

Definition createRoom (now : Z) (name : string) (isGroup : bool)
    (createdBy : option Z) (db : Db) : Res Room * Db :=
  insertRoom now name isGroup false createdBy db.

Definition ensurePublicRoom (now : Z) (db : Db) : Res Room * Db :=
  match first_row (List.filter r_isPublic (rooms db)) with
  | Some publicRoom => (Ret publicRoom, db)
  | None => insertRoom now "Public Chat" true true None db
  end.

Definition isRoomMember (db : Db) (roomId userId : Z) : bool :=
  existsb (fun rm => (rm_roomId rm =? roomId) && (rm_userId rm =? userId))
          (roomMembers db).

Definition findPrivateRoom (db : Db) (userId1 userId2 : Z) : option Room :=
  let userRooms :=
    join_members_rooms db (fun rm r =>
      (rm_userId rm =? userId1) && negb (r_isGroup r) && negb (r_isPublic r)) in
  List.find (fun room => isRoomMember db (r_id room) userId2) userRooms.

Definition addRoomMember (now : Z) (roomId userId : Z) (db : Db) : Res unit * Db :=
  if room_exists db roomId && user_exists db userId
  then
    let row := mkRoomMember (roomMembers_seq db) roomId userId now in
    (Ret tt,
     mkDb (users db) (users_seq db)
          (rooms db) (rooms_seq db)
          (roomMembers db ++ [row]) (roomMembers_seq db + 1)
          (messages db) (messages_seq db)
          (reactions db) (reactions_seq db))
  else (Throw "violates foreign key constraint", db).

Definition getRoomMembers (db : Db) (roomId : Z) : list User :=
  flat_map (fun rm =>
    List.filter (fun u => (rm_userId rm =? u_id u) && (rm_roomId rm =? roomId))
                (users db))
    (roomMembers db).

Definition createMessage (now : Z) (roomId userId : Z) (content : string)
    (expiresAt : option Z) (db : Db) : Res Message * Db :=
  if room_exists db roomId && user_exists db userId
  then
    let message := mkMessage (messages_seq db) roomId userId content now expiresAt in
    (Ret message,
     mkDb (users db) (users_seq db)
          (rooms db) (rooms_seq db)
          (roomMembers db) (roomMembers_seq db)
          (messages db ++ [message]) (messages_seq db + 1)
          (reactions db) (reactions_seq db))
  else (Throw "violates foreign key constraint", db).

(** [orderBy(desc(messages.createdAt))]: the later message first. *)
Definition createdAt_desc (a b : Message) : Prop :=
  m_createdAt b <= m_createdAt a.

#[global] Instance createdAt_desc_dec : RelDecision createdAt_desc.
Proof. intros a b. unfold createdAt_desc. apply _. Defined.

Definition default_limit : nat := 50.

Definition getRoomMessages_limit (db : Db) (roomId : Z) (limit : nat)
    : list Message :=
  let roomMessages :=
    take limit
      (merge_sort createdAt_desc
         (List.filter (fun m => m_roomId m =? roomId) (messages db))) in
  reverse roomMessages.

(** [getRoomMessages(roomId, limit = 50)] called with one argument. *)
Definition getRoomMessages (db : Db) (roomId : Z) : list Message :=
  getRoomMessages_limit db roomId default_limit.

(** The [where] clause of [deleteExpiredMessages]:
    [expiresAt IS NOT NULL AND expiresAt <= now]. *)
Definition expired (now : Z) (m : Message) : bool :=
  match m_expiresAt m with
  | Some t => t <=? now
  | None => false
  end.

Definition referenced_by_reaction (db : Db) (m : Message) : bool :=
  existsb (fun re => re_messageId re =? m_id m) (reactions db).

(** [delete(messages).where(...).returning()], then [result.length].
    [reactions.messageId] references [messages.id] without an
    [onDelete] action, so the statement is rejected as a whole while a
    reaction still points at one of the rows it would delete. *)
Definition deleteExpiredMessages (now : Z) (db : Db) : Res nat * Db :=
  let result := List.filter (expired now) (messages db) in
  if existsb (referenced_by_reaction db) result
  then (Throw "violates foreign key constraint", db)
  else
    (Ret (length result),
     mkDb (users db) (users_seq db)
          (rooms db) (rooms_seq db)
          (roomMembers db) (roomMembers_seq db)
          (List.filter (fun m => negb (expired now m)) (messages db))
          (messages_seq db)
          (reactions db) (reactions_seq db)).

(** The [where] clause shared by [addReaction] and [removeReaction]. *)
Definition same_reaction (messageId userId : Z) (emoji : string)
    (re : Reaction) : bool :=
  (re_messageId re =? messageId) && (re_userId re =? userId)
  && String.eqb (re_emoji re) emoji.

Definition addReaction (now : Z) (messageId userId : Z) (emoji : string)
    (db : Db) : Res Reaction * Db :=
  match first_row (List.filter (same_reaction messageId userId emoji) (reactions db)) with
  | Some existing => (Ret existing, db)
  | None =>
      if message_exists db messageId && user_exists db userId
      then
        let reaction := mkReaction (reactions_seq db) messageId userId emoji now in
        (Ret reaction,
         mkDb (users db) (users_seq db)
              (rooms db) (rooms_seq db)
              (roomMembers db) (roomMembers_seq db)
              (messages db) (messages_seq db)
              (reactions db ++ [reaction]) (reactions_seq db + 1))
      else (Throw "violates foreign key constraint", db)
  end.

(** [delete(reactions).where(...).returning()], then
    [result.length > 0]. *)
Definition removeReaction (messageId userId : Z) (emoji : string)
    (db : Db) : bool * Db :=
  let result := List.filter (same_reaction messageId userId emoji) (reactions db) in
  (negb (Nat.eqb (length result) 0),
   mkDb (users db) (users_seq db)
        (rooms db) (rooms_seq db)
        (roomMembers db) (roomMembers_seq db)
        (messages db) (messages_seq db)
        (List.filter (fun re => negb (same_reaction messageId userId emoji re))
                     (reactions db))
        (reactions_seq db)).

(** A reaction joined with its author, as [getMessagesReactions]
    returns it: [{...r.reaction, username, walletAddress}]. *)
Record ReactionWithUser := mkReactionWithUser {
  rw_reaction : Reaction;
  rw_username : option string;
  rw_walletAddress : string
}.

Definition getMessagesReactions (db : Db) (messageIds : list Z)
    : list ReactionWithUser :=
  match messageIds with
  | [] => []
  | _ =>
      flat_map (fun re =>
        List.map (fun u => mkReactionWithUser re (u_username u) (u_walletAddress u))
          (List.filter (fun u =>
             (re_userId re =? u_id u)
             && existsb (fun i => re_messageId re =? i) messageIds)
             (users db)))
        (reactions db)
  end.

End Storage.

(** ** server.js: process state, HTTP routes, Socket.io handlers *)

Module Server.
Import Storage.

(** An entry of [nonceStore]: [{ nonce, message, timestamp }]. *)
Record Challenge := mkChallenge {
  nonce : string;
  message : string;
  timestamp : Z
}.

(** The two library calls of the verify route. [PublicKey_ok w] says
    that [new PublicKey(w)] returns instead of throwing;
    [nacl_sign_detached_verify msg sig w] is
    [nacl.sign.detached.verify] on the encoded message, the base64
    decoded signature and the bytes of the key of [w], which throws on
    a signature of the wrong size. *)
Class Crypto := {
  PublicKey_ok : string -> bool;
  nacl_sign_detached_verify : string -> string -> string -> Res bool
}.

(** The mutable state of the process: the two [Map]s of the module, the
    session store of [express-session] (session id to
    [session.userId]), the rooms each socket has joined and the
    database behind [storage]. *)
Record State := mkState {
  nonceStore : gmap string Challenge;
  sessions : gmap string Z;
  socketToUser : gmap string Z;
  socketRooms : gset (string * string);
  db : Db
}.

Definition init : State := mkState ∅ ∅ ∅ ∅ empty_db.

Definition set_nonceStore (f : gmap string Challenge -> gmap string Challenge)
    (s : State) : State :=
  mkState (f (nonceStore s)) (sessions s) (socketToUser s) (socketRooms s) (db s).
Definition set_sessions (f : gmap string Z -> gmap string Z) (s : State) : State :=
  mkState (nonceStore s) (f (sessions s)) (socketToUser s) (socketRooms s) (db s).
Definition set_socketToUser (f : gmap string Z -> gmap string Z) (s : State) : State :=
  mkState (nonceStore s) (sessions s) (f (socketToUser s)) (socketRooms s) (db s).
Definition set_socketRooms (f : gset (string * string) -> gset (string * string))
    (s : State) : State :=
  mkState (nonceStore s) (sessions s) (socketToUser s) (f (socketRooms s)) (db s).
Definition set_db (d : Db) (s : State) : State :=
  mkState (nonceStore s) (sessions s) (socketToUser s) (socketRooms s) d.

(** [!v] on a string and on an identifier that may be [undefined]. *)
Definition falsy_string (v : string) : bool := String.eqb v "".
Definition truthy_id (v : option Z) : option Z :=
  match v with
  | Some 0 => None
  | other => other
  end.

(** *** HTTP routes *)

Inductive Body : Type :=
| BodyError (error : string)
| BodyNonce (message nonce : string)
| BodyUser (user : User).

Record Response := mkResponse {
  status : Z;
  body : Body
}.

(** The line feed of the template literal (character code 10). *)
Definition nl : string :=
  String (Ascii.Ascii false true false true false false false false) EmptyString.

Definition challenge_message (nonce walletAddress : string) : string :=
  "ZKONTROL Authentication" +:+ nl +:+ nl
  +:+ "Sign this message to prove you own this wallet." +:+ nl +:+ nl
  +:+ "Nonce: " +:+ nonce +:+ nl +:+ "Wallet: " +:+ walletAddress.

Definition nonce_ttl : Z := 5 * 60 * 1000.

Section Routes.
Context `{Crypto}.

(** [POST /api/auth/nonce]; [rnd] is the string the two
    [Math.random()] calls produce. *)
Definition post_auth_nonce (now : Z) (rnd : string) (walletAddress : string)
    (s : State) : State * Response :=
  if falsy_string walletAddress
  then (s, mkResponse 400 (BodyError "Wallet address required"))
  else if PublicKey_ok walletAddress
  then
    let nonce := rnd in
    let message := challenge_message nonce walletAddress in
    (set_nonceStore (insert walletAddress (mkChallenge nonce message now)) s,
     mkResponse 200 (BodyNonce message nonce))
  else (s, mkResponse 400 (BodyError "Invalid wallet address")).

(** [username || `User_${walletAddress.slice(0, 6)}`]. *)
Definition displayName (username : option string) (walletAddress : string)
    : string :=
  match username with
  | Some n => if falsy_string n
              then "User_" +:+ String.substring 0 6 walletAddress
              else n
  | None => "User_" +:+ String.substring 0 6 walletAddress
  end.

(** [POST /api/auth/verify]; [sessionId] names the session of the
    request, on which [req.session.userId] is set. *)
Definition post_auth_verify (now : Z) (sessionId : string)
    (walletAddress signature : string) (username : option string)
    (s : State) : State * Response :=
  if falsy_string walletAddress || falsy_string signature
  then (s, mkResponse 400 (BodyError "Wallet address and signature required"))
  else
    match nonceStore s !! walletAddress with
    | None =>
        (s, mkResponse 400 (BodyError "No nonce found. Request a nonce first."))
    | Some stored =>
        if now - timestamp stored >? nonce_ttl
        then (set_nonceStore (delete walletAddress) s,
              mkResponse 400 (BodyError "Nonce expired. Request a new nonce."))
        else if negb (PublicKey_ok walletAddress)
        then (s, mkResponse 500 (BodyError "Invalid public key input"))
        else
          match nacl_sign_detached_verify (message stored) signature walletAddress with
          | Throw err => (s, mkResponse 500 (BodyError err))
          | Ret false => (s, mkResponse 401 (BodyError "Invalid signature"))
          | Ret true =>
              let s1 := set_nonceStore (delete walletAddress) s in
              match getUserByWallet (db s1) walletAddress with
              | Some user =>
                  (set_sessions (insert sessionId (u_id user)) s1,
                   mkResponse 200 (BodyUser user))
              | None =>
                  match createUser now walletAddress
                          (Some (displayName username walletAddress)) (db s1) with
                  | (Ret user, d) =>
                      (set_sessions (insert sessionId (u_id user)) (set_db d s1),
                       mkResponse 200 (BodyUser user))
                  | (Throw err, d) =>
                      (set_db d s1, mkResponse 500 (BodyError err))
                  end
              end
          end
    end.
End Routes.

(** *** Socket.io: what a handler sends, and to whom *)

Inductive Target : Type :=
| ToSocket (socketId : string)                      (* socket.emit *)
| ToRoom (room : string)                            (* io.to(room).emit *)
| ToRoomExceptSender (room : string) (socketId : string)  (* socket.to(room).emit *)
| ToAllExceptSender (socketId : string).            (* socket.broadcast.emit *)

(** A message as [room_joined] lists it:
    [{id, roomId, userId, content, timestamp, expiresAt}]. *)
Record MessageView := mkMessageView {
  mv_id : Z;
  mv_roomId : Z;
  mv_userId : Z;
  mv_content : string;
  mv_timestamp : Z;
  mv_expiresAt : option Z
}.

Definition message_view (m : Message) : MessageView :=
  mkMessageView (m_id m) (m_roomId m) (m_userId m) (m_content m)
                (m_createdAt m) (m_expiresAt m).

(** The events the server emits, one constructor per event name that
    occurs in an [emit] call of [server.js]. *)
Inductive Event : Type :=
| EvError (message : string)
| EvAuthSuccess (id : Z) (username : option string) (walletAddress : string)
                (rooms : list Room)
| EvUserOnline (id : Z) (username : option string) (walletAddress : string)
| EvUserNotFound (wallet : string)
| EvRoomCreated (room : Room)
| EvRoomJoined (room : Room) (members : list (Z * option string))
               (messages : list MessageView) (reactions : list ReactionWithUser)
| EvUserJoinedRoom (roomId : Z) (user : option string)
| EvNewMessage (id roomId userId : Z) (username : option string)
               (content : string) (timestamp : Z) (expiresAt : option Z)
| EvUserTyping (roomId : Z) (username : option string)
| EvUserStopTyping (roomId : Z) (username : option string)
| EvReactionAdded (id messageId userId : Z) (emoji : string)
                  (username : option string) (walletAddress : string)
| EvReactionRemoved (messageId userId : Z) (emoji : string)
| EvUserOffline (id : Z) (username : option string).

Definition event_name (e : Event) : string :=
  match e with
  | EvError _ => "error"
  | EvAuthSuccess _ _ _ _ => "auth_success"
  | EvUserOnline _ _ _ => "user_online"
  | EvUserNotFound _ => "user_not_found"
  | EvRoomCreated _ => "room_created"
  | EvRoomJoined _ _ _ _ => "room_joined"
  | EvUserJoinedRoom _ _ => "user_joined_room"
  | EvNewMessage _ _ _ _ _ _ _ => "new_message"
  | EvUserTyping _ _ => "user_typing"
  | EvUserStopTyping _ _ => "user_stop_typing"
  | EvReactionAdded _ _ _ _ _ _ => "reaction_added"
  | EvReactionRemoved _ _ _ => "reaction_removed"
  | EvUserOffline _ _ => "user_offline"
  end.

Definition Emit : Type := Target * Event.

(** *** The handler monad: state, emitted events, exceptions *)

Definition M (A : Type) : Type := State -> Res A * State * list Emit.

#[global] Instance M_ret : MRet M := fun A a s => (Ret a, s, []).

#[global] Instance M_bind : MBind M := fun A B f m s =>
  match m s with
  | (Ret a, s1, out1) =>
      let '(r, s2, out2) := f a s1 in (r, s2, out1 ++ out2)
  | (Throw err, s1, out1) => (Throw err, s1, out1)
  end.

Definition throw {A} (err : string) : M A := fun s => (Throw err, s, []).

(** [try { body } catch (error) { handler }]: what the body did before
    it threw stays done. *)
Definition try_catch (body : M unit) (handler : string -> M unit) : M unit :=
  fun s =>
    match body s with
    | (Ret a, s1, out1) => (Ret a, s1, out1)
    | (Throw err, s1, out1) =>
        let '(r, s2, out2) := handler err s1 in (r, s2, out1 ++ out2)
    end.

Definition get_state : M State := fun s => (Ret s, s, []).
Definition modify (f : State -> State) : M unit := fun s => (Ret tt, f s, []).
Definition emit (t : Target) (e : Event) : M unit := fun s => (Ret tt, s, [(t, e)]).

(** A query, and a statement that may be rejected, on [storage]. *)
Definition query {A} (f : Db -> A) : M A := fun s => (Ret (f (db s)), s, []).
Definition statement {A} (f : Db -> Res A * Db) : M A := fun s =>
  let '(r, d) := f (db s) in (r, set_db d s, []).

(** Reading a property of a value that may be [undefined]. *)
Definition deref {A} (v : option A) : M A :=
  match v with
  | Some a => mret a
  | None => throw "TypeError: Cannot read properties of undefined"
  end.

Definition socket_join (socketId room : string) : M unit :=
  modify (set_socketRooms (fun rs => {[ (socketId, room) ]} ∪ rs)).

(** Falling through a conditional without doing anything. *)
Definition skip : M unit := mret tt.

(** [console.log] and [console.error] leave no trace in the state. *)
Definition console : M unit := mret tt.

Definition run (m : M unit) (s : State) : State * list Emit :=
  let '(_, s', out) := m s in (s', out).

(** *** Socket.io event handlers

    Every handler takes the clock, the [socket.id] of the connection it
    is registered on, and the fields it destructures from [data]. *)

Definition not_authenticated (socketId : string) : M unit :=
  emit (ToSocket socketId) (EvError "Not authenticated").

(** [`${v}`] for a nullable text column. *)
Definition template_of (v : option string) : string := default "null" v.

(** [socket.on('auth', ...)]: the user comes from the session of the
    connection's request, never from [data]. *)
Definition on_auth (now : Z) (socketId sessionId : string) : M unit :=
  try_catch
    (s ← get_state;
     match truthy_id (sessions s !! sessionId) with
     | None =>
         emit (ToSocket socketId)
           (EvError "Not authenticated. Please connect your Phantom wallet first.")
     | Some userId =>
         user ← query (fun d => getUser d userId);
         match user with
         | None =>
             emit (ToSocket socketId)
               (EvError "User not found. Please authenticate again.")
         | Some user =>
             modify (set_socketToUser (insert socketId (u_id user)));;
             publicRoom ← statement (ensurePublicRoom now);
             isPublicMember ← query (fun d => isRoomMember d (r_id publicRoom) (u_id user));
             (if (isPublicMember : bool) then skip
              else statement (addRoomMember now (r_id publicRoom) (u_id user)));;
             userRooms ← query (fun d => getUserRooms d (u_id user));
             modify (fun s0 =>
               foldl (fun acc room =>
                        set_socketRooms
                          (fun rs => {[ (socketId, pretty (r_id room)) ]} ∪ rs) acc)
                     s0 userRooms);;
             emit (ToSocket socketId)
               (EvAuthSuccess (u_id user) (u_username user) (u_walletAddress user)
                              userRooms);;
             emit (ToAllExceptSender socketId)
               (EvUserOnline (u_id user) (u_username user) (u_walletAddress user));;
             console
         end
     end)
    (fun _ => emit (ToSocket socketId) (EvError "Authentication failed")).

(** [socket.on('create_private_chat', ...)]. *)
Definition on_create_private_chat (now : Z) (socketId : string)
    (recipientWallet : string) : M unit :=
  s ← get_state;
  match truthy_id (socketToUser s !! socketId) with
  | None => not_authenticated socketId
  | Some userId =>
      try_catch
        (recipient ← query (fun d => getUserByWallet d recipientWallet);
         match recipient with
         | None => emit (ToSocket socketId) (EvUserNotFound recipientWallet)
         | Some recipient =>
             existingRoom ← query (fun d => findPrivateRoom d userId (u_id recipient));
             match existingRoom with
             | Some existingRoom =>
                 emit (ToSocket socketId) (EvRoomCreated existingRoom);;
                 socket_join socketId (pretty (r_id existingRoom))
             | None =>
                 currentUser ← query (fun d => getUser d userId);
                 currentUser ← deref currentUser;
                 room ← statement
                   (createRoom now
                      (template_of (u_username currentUser) +:+ " & "
                       +:+ template_of (u_username recipient))
                      false (Some userId));
                 statement (addRoomMember now (r_id room) userId);;
                 statement (addRoomMember now (r_id room) (u_id recipient));;
                 socket_join socketId (pretty (r_id room));;
                 emit (ToSocket socketId) (EvRoomCreated room);;
                 console
             end
         end)
        (fun _ => emit (ToSocket socketId) (EvError "Failed to create private chat"))
  end.

(** [socket.on('create_room', ...)]: [name || 'New Chat'] and
    [isGroup || false]. *)
Definition on_create_room (now : Z) (socketId : string)
    (name : option string) (isGroup : option bool) : M unit :=
  s ← get_state;
  match truthy_id (socketToUser s !! socketId) with
  | None => not_authenticated socketId
  | Some userId =>
      try_catch
        (room ← statement
           (createRoom now
              (match name with
               | Some n => if falsy_string n then "New Chat" else n
               | None => "New Chat"
               end)
              (default false isGroup) (Some userId));
         statement (addRoomMember now (r_id room) userId);;
         socket_join socketId (pretty (r_id room));;
         emit (ToSocket socketId) (EvRoomCreated room);;
         console)
        (fun _ => emit (ToSocket socketId) (EvError "Failed to create room"))
  end.

(** [socket.on('join_room', ...)]; [roomId] is [roomIdNum]. *)
Definition on_join_room (now : Z) (socketId : string) (roomId : Z) : M unit :=
  s ← get_state;
  match truthy_id (socketToUser s !! socketId) with
  | None => not_authenticated socketId
  | Some userId =>
      try_catch
        (room ← query (fun d => getRoom d roomId);
         match room with
         | None => emit (ToSocket socketId) (EvError "Room not found")
         | Some room =>
             isMember ← query (fun d => isRoomMember d roomId userId);
             (if (isMember : bool) then skip
              else statement (addRoomMember now roomId userId));;
             socket_join socketId (pretty roomId);;
             messages ← query (fun d => getRoomMessages d roomId);
             members ← query (fun d => getRoomMembers d roomId);
             let messageIds := List.map m_id messages in
             allReactions ← query (fun d => getMessagesReactions d messageIds);
             emit (ToSocket socketId)
               (EvRoomJoined room
                  (List.map (fun m => (u_id m, u_username m)) members)
                  (List.map message_view messages)
                  allReactions);;
             user ← query (fun d => getUser d userId);
             user ← deref user;
             emit (ToRoomExceptSender (pretty roomId) socketId)
               (EvUserJoinedRoom roomId (u_username user));;
             console
         end)
        (fun _ => emit (ToSocket socketId) (EvError "Failed to join room"))
  end.

(** [socket.on('send_message', ...)]; [expiresAt] is the instant
    [new Date(expiresAt)] denotes, [None] when the field is absent. *)
Definition on_send_message (now : Z) (socketId : string) (roomId : Z)
    (content : string) (expiresAt : option Z) : M unit :=
  s ← get_state;
  match truthy_id (socketToUser s !! socketId) with
  | None => not_authenticated socketId
  | Some userId =>
      try_catch
        (isMember ← query (fun d => isRoomMember d roomId userId);
         if negb isMember
         then emit (ToSocket socketId) (EvError "Not a member of this room")
         else
           message ← statement (createMessage now roomId userId content expiresAt);
           user ← query (fun d => getUser d userId);
           user ← deref user;
           emit (ToRoom (pretty roomId))
             (EvNewMessage (m_id message) (m_roomId message) (m_userId message)
                           (u_username user) (m_content message)
                           (m_createdAt message) (m_expiresAt message));;
           console)
        (fun _ => emit (ToSocket socketId) (EvError "Failed to send message"))
  end.

(** [socket.on('typing', ...)] and [socket.on('stop_typing', ...)]:
    the body is guarded by [if (userId)] and has no [else]. *)
Definition on_typing (socketId : string) (roomId : Z) : M unit :=
  s ← get_state;
  match truthy_id (socketToUser s !! socketId) with
  | Some userId =>
      try_catch
        (user ← query (fun d => getUser d userId);
         user ← deref user;
         emit (ToRoomExceptSender (pretty roomId) socketId)
           (EvUserTyping roomId (u_username user)))
        (fun _ => console)
  | None => skip
  end.

Definition on_stop_typing (socketId : string) (roomId : Z) : M unit :=
  s ← get_state;
  match truthy_id (socketToUser s !! socketId) with
  | Some userId =>
      try_catch
        (user ← query (fun d => getUser d userId);
         user ← deref user;
         emit (ToRoomExceptSender (pretty roomId) socketId)
           (EvUserStopTyping roomId (u_username user)))
        (fun _ => console)
  | None => skip
  end.

(** [socket.on('add_reaction', ...)]. *)
Definition on_add_reaction (now : Z) (socketId : string) (messageId : Z)
    (emoji : string) (roomId : Z) : M unit :=
  s ← get_state;
  match truthy_id (socketToUser s !! socketId) with
  | None => not_authenticated socketId
  | Some userId =>
      try_catch
        (reaction ← statement (addReaction now messageId userId emoji);
         user ← query (fun d => getUser d userId);
         user ← deref user;
         emit (ToRoom (pretty roomId))
           (EvReactionAdded (re_id reaction) (re_messageId reaction)
                            (re_userId reaction) (re_emoji reaction)
                            (u_username user) (u_walletAddress user));;
         console)
        (fun _ => emit (ToSocket socketId) (EvError "Failed to add reaction"))
  end.

(** [socket.on('remove_reaction', ...)]. *)
Definition on_remove_reaction (socketId : string) (messageId : Z)
    (emoji : string) (roomId : Z) : M unit :=
  s ← get_state;
  match truthy_id (socketToUser s !! socketId) with
  | None => not_authenticated socketId
  | Some userId =>
      try_catch
        (removed ← statement (fun d =>
           let '(removed, d') := removeReaction messageId userId emoji d in
           (Ret removed, d'));
         if (removed : bool)
         then
           emit (ToRoom (pretty roomId)) (EvReactionRemoved messageId userId emoji);;
           console
         else skip)
        (fun _ => emit (ToSocket socketId) (EvError "Failed to remove reaction"))
  end.

(** [socket.on('disconnect', ...)]. *)
Definition on_disconnect (socketId : string) : M unit :=
  s ← get_state;
  match truthy_id (socketToUser s !! socketId) with
  | Some userId =>
      try_catch
        (user ← query (fun d => getUser d userId);
         match user with
         | Some user =>
             emit (ToAllExceptSender socketId) (EvUserOffline userId (u_username user))
         | None => skip
         end;;
         modify (set_socketToUser (delete socketId)))
        (fun _ => console)
  | None => skip
  end.

(** The callback of [setInterval(..., 60000)]: it calls
    [storage.deleteExpiredMessages()], logs the count when it is
    positive, and logs the error when the call is rejected. *)
Definition sweep_tick (now : Z) : M unit :=
  try_catch
    (deletedCount ← statement (deleteExpiredMessages now);
     if (0 <? deletedCount)%nat then console else skip)
    (fun _ => console).

(** The client events with a room in their [data], and their dispatch. *)
Inductive RoomOp : Type :=
| join_room (roomId : Z)
| send_message (roomId : Z) (content : string) (expiresAt : option Z)
| add_reaction (messageId : Z) (emoji : string) (roomId : Z)
| remove_reaction (messageId : Z) (emoji : string) (roomId : Z)
| typing (roomId : Z)
| stop_typing (roomId : Z).

Definition on_room_op (now : Z) (socketId : string) (op : RoomOp) : M unit :=
  match op with
  | join_room roomId => on_join_room now socketId roomId
  | send_message roomId content expiresAt =>
      on_send_message now socketId roomId content expiresAt
  | add_reaction messageId emoji roomId =>
      on_add_reaction now socketId messageId emoji roomId
  | remove_reaction messageId emoji roomId =>
      on_remove_reaction socketId messageId emoji roomId
  | typing roomId => on_typing socketId roomId
  | stop_typing roomId => on_stop_typing socketId roomId
  end.

(** *** Requests and reachable states

    The events the process reacts to, one at a time, and the states it
    goes through from [init]. *)

Inductive Request : Type :=
| POST_auth_nonce (now : Z) (rnd walletAddress : string)
| POST_auth_verify (now : Z) (sessionId walletAddress signature : string)
                   (username : option string)
| socket_auth (now : Z) (socketId sessionId : string)
| socket_create_private_chat (now : Z) (socketId recipientWallet : string)
| socket_create_room (now : Z) (socketId : string) (name : option string)
                     (isGroup : option bool)
| socket_room_op (now : Z) (socketId : string) (op : RoomOp)
| socket_disconnect (socketId : string)
| interval_tick (now : Z).

Definition serve `{Crypto} (req : Request) (s : State) : State :=
  match req with
  | POST_auth_nonce now rnd w => fst (post_auth_nonce now rnd w s)
  | POST_auth_verify now sessionId w signature username =>
      fst (post_auth_verify now sessionId w signature username s)
  | socket_auth now socketId sessionId => fst (run (on_auth now socketId sessionId) s)
  | socket_create_private_chat now socketId w =>
      fst (run (on_create_private_chat now socketId w) s)
  | socket_create_room now socketId name isGroup =>
      fst (run (on_create_room now socketId name isGroup) s)
  | socket_room_op now socketId op => fst (run (on_room_op now socketId op) s)
  | socket_disconnect socketId => fst (run (on_disconnect socketId) s)
  | interval_tick now => fst (run (sweep_tick now) s)
  end.

Inductive reachable `{Crypto} : State → Prop :=
| reachable_init : reachable init
| reachable_serve s req : reachable s → reachable (serve req s).

(** *** POST /api/ai/chat and server/openai.js *)

(** [openai.chat.completions.create(...)] for a user message: the call
    is rejected, or it returns the [content] of the message of the
    first choice, absent when the reply has no choice or no content. *)
Class Assistant := {
  completions_create : string -> Res (option string)
}.

Definition assistant_fallback : string :=
  "I'm having trouble responding right now. Please try again.".

(** [response.choices[0]?.message?.content || fallback] under [try];
    the [catch] throws a new error with a fixed message. *)
Definition getCryptoAssistantResponse `{Assistant} (userMessage : string)
    : Res string :=
  match completions_create userMessage with
  | Ret content =>
      Ret (match content with
           | Some c => if falsy_string c then assistant_fallback else c
           | None => assistant_fallback
           end)
  | Throw _ => Throw "Failed to get AI response"
  end.

Inductive AiBody : Type :=
| AiError (error : string)
| AiReply (response : string).

Record AiResponse := mkAiResponse {
  ai_status : Z;
  ai_body : AiBody
}.

(** [POST /api/ai/chat]; [message] is [None] when the body has no
    [message] or one that is not a string. *)
Definition post_ai_chat `{Assistant} (sessionId : string)
    (message : option string) (s : State) : AiResponse :=
  match truthy_id (sessions s !! sessionId) with
  | None => mkAiResponse 401 (AiError "Not authenticated")
  | Some userId =>
      match message with
      | None => mkAiResponse 400 (AiError "Message is required")
      | Some message =>
          if falsy_string message
          then mkAiResponse 400 (AiError "Message is required")
          else
            match getCryptoAssistantResponse message with
            | Ret aiResponse => mkAiResponse 200 (AiReply aiResponse)
            | Throw _ => mkAiResponse 500 (AiError "Failed to get AI response")
            end
      end
  end.

End Server.

(** ** The browser client: the local store of reactions

    The handlers of [reaction_added], [reaction_removed] and
    [room_joined] of the client script, and its [addReaction], as far
    as they read and write [messageReactions]; the rendering calls are
    left out. *)

Module Client.
Import Storage Server.

(** An entry of [messageReactions[messageId]]: the payload of
    [reaction_added], or a row of the [reactions] of [room_joined]. *)
Record Entry := mkEntry {
  e_id : Z;
  e_messageId : Z;
  e_userId : Z;
  e_emoji : string;
  e_username : option string;
  e_walletAddress : string
}.

Definition entry_of_row (rw : ReactionWithUser) : Entry :=
  mkEntry (re_id (rw_reaction rw)) (re_messageId (rw_reaction rw))
          (re_userId (rw_reaction rw)) (re_emoji (rw_reaction rw))
          (rw_username rw) (rw_walletAddress rw).

(** [r => r.userId === userId && r.emoji === emoji]. *)
Definition same_reactor (userId : Z) (emoji : string) (r : Entry) : bool :=
  (e_userId r =? userId) && String.eqb (e_emoji r) emoji.

(** [socket.on('reaction_added', ...)]. *)
Definition on_reaction_added (data : Entry)
    (messageReactions : gmap Z (list Entry)) : gmap Z (list Entry) :=
  let messageReactions :=
    match messageReactions !! e_messageId data with
    | None => <[e_messageId data := []]> messageReactions
    | Some _ => messageReactions
    end in
  let list := default [] (messageReactions !! e_messageId data) in
  match List.find (same_reactor (e_userId data) (e_emoji data)) list with
  | Some existing => messageReactions
  | None => <[e_messageId data := list ++ [data]]> messageReactions
  end.

(** [socket.on('reaction_removed', ...)]; the payload is
    [{messageId, userId, emoji}]. *)
Definition on_reaction_removed (messageId userId : Z) (emoji : string)
    (messageReactions : gmap Z (list Entry)) : gmap Z (list Entry) :=
  match messageReactions !! messageId with
  | Some list =>
      <[messageId := List.filter (fun r => negb (same_reactor userId emoji r)) list]>
        messageReactions
  | None => messageReactions
  end.

(** The reactions part of [socket.on('room_joined', ...)]: the store is
    emptied and refilled from [data.reactions]. *)
Definition on_room_joined (reactions : list Entry) : gmap Z (list Entry) :=
  foldl (fun messageReactions r =>
           <[e_messageId r := default [] (messageReactions !! e_messageId r) ++ [r]]>
             messageReactions)
        ∅ reactions.

(** [addReaction(messageId, emoji)]: what it emits, if anything;
    [currentUser] and [currentRoom] are the identifiers of the
    objects, [None] when they are unset. *)
Definition addReaction (currentUser currentRoom : option Z) (connected : bool)
    (messageReactions : gmap Z (list Entry)) (messageId : Z) (emoji : string)
    : option RoomOp :=
  match currentUser, currentRoom, connected with
  | Some userId, Some roomId, true =>
      let reactions := default [] (messageReactions !! messageId) in
      match List.find (same_reactor userId emoji) reactions with
      | Some existing => Some (remove_reaction messageId emoji roomId)
      | None => Some (add_reaction messageId emoji roomId)
      end
  | _, _, _ => None
  end.

(** The reaction events of the server as the client receives them. *)
Definition receive (e : Event) (messageReactions : gmap Z (list Entry))
    : gmap Z (list Entry) :=
  match e with
  | EvReactionAdded id messageId userId emoji username walletAddress =>
      on_reaction_added (mkEntry id messageId userId emoji username walletAddress)
                        messageReactions
  | EvReactionRemoved messageId userId emoji =>
      on_reaction_removed messageId userId emoji messageReactions
  | EvRoomJoined _ _ _ reactions =>
      on_room_joined (List.map entry_of_row reactions)
  | _ => messageReactions
  end.

End Client.

(** * Vocabulary of the properties *)

Import Storage Server.

(** ** Predicates on the database and on the state *)

(** The rows of [reactions] for one (message, user, emoji) triple. *)
Definition rows_for (d : Db) (messageId userId : Z) (emoji : string)
    : list Reaction :=
  List.filter (same_reaction messageId userId emoji) (reactions d).

Definition at_most_one_per_triple (d : Db) : Prop :=
  ∀ messageId userId emoji, (length (rows_for d messageId userId emoji) ≤ 1)%nat.

(** A sequence of [addReaction] calls, each with its own clock reading,
    run one after the other; a rejected call leaves the rows as they
    were. *)
Definition addReactions (calls : list (Z * Z * Z * string)) (d : Db) : Db :=
  foldl (fun acc '(now, messageId, userId, emoji) =>
           snd (addReaction now messageId userId emoji acc)) d calls.

(** Referential integrity of [room_members]: the two [references]
    clauses of the table. The database enforces it on every insert, and
    no row of [users] or [rooms] is ever deleted. *)
Definition member_row_ok (d : Db) (rm : RoomMember) : bool :=
  room_exists d (rm_roomId rm) && user_exists d (rm_userId rm).

Definition memberships_reference (d : Db) : bool :=
  forallb (member_row_ok d) (roomMembers d).

(** Chronological order, the oldest message first. *)
Definition oldest_first (a b : Message) : Prop :=
  m_createdAt a ≤ m_createdAt b.

(** The rows [getRoomMessages] selects from. *)
Definition room_rows (d : Db) (roomId : Z) : list Message :=
  List.filter (fun m => m_roomId m =? roomId) (messages d).

(** ** Hoare triples and invariants *)

(** [hoare P m Q E]: from a state in [P], [m] either returns [a] in a
    state in [Q a] or throws in a state in [E]. *)
Definition hoare {A} (P : State → Prop) (m : M A)
    (Q : A → State → Prop) (E : State → Prop) : Prop :=
  ∀ s, P s →
    match m s with
    | (Ret a, s', _) => Q a s'
    | (Throw _, s', _) => E s'
    end.

(** What every statement of [DatabaseStorage] keeps true of the
    database: the membership rows reference existing rooms and users,
    there is at most one reaction row per triple, and the identifiers
    of the users are positive, as the sequence that hands them out. *)
Record DbInv (d : Db) : Prop := mkDbInv {
  inv_members : memberships_reference d = true;
  inv_reactions : at_most_one_per_triple d;
  inv_user_ids : ∀ u, In u (users d) → 0 < u_id u;
  inv_users_seq : 0 < users_seq d
}.

(** No statement removes a user. *)
Definition keeps_users (d d' : Db) : Prop :=
  ∀ id, user_exists d id = true → user_exists d' id = true.

(** A statement that keeps [DbInv] and the users, accepted or not. *)
Definition statement_ok {A} (f : Db → Res A * Db) : Prop :=
  ∀ d, DbInv d → DbInv (snd (f d)) ∧ keeps_users d (snd (f d)).

(** What every request keeps true of the process: [DbInv], and the
    user of a bound connection or of a session is a row of [users]. *)
Record Inv (s : State) : Prop := mkInv {
  inv_db : DbInv (db s);
  inv_bound : ∀ socketId userId,
    socketToUser s !! socketId = Some userId → user_exists (db s) userId = true;
  inv_session : ∀ sessionId userId,
    sessions s !! sessionId = Some userId → user_exists (db s) userId = true
}.

(** A handler that keeps [Inv], whether it returns or throws. *)
Definition preserves {A} (m : M A) : Prop := hoare Inv m (fun _ => Inv) Inv.

(** ** Concrete states *)

(** Two users, one of them on a bound connection, and no room yet. *)
Definition two_users : State :=
  mkState ∅ ∅ {[ "socket-1" := 1 ]} ∅
    (mkDb [mkUser 1 (Some "User_AAAA") "wallet-1" 10;
           mkUser 2 (Some "User_BBBB") "wallet-2" 20] 3
          [] 1 [] 1 [] 1 [] 1).

(** One message in room 1, posted at 4000 with [expiresAt] 5000, and
    one connection subscribed to the room. *)
Definition one_expiring : State :=
  mkState ∅ ∅ {[ "socket-1" := 1 ]} {[ ("socket-1", "1") ]}
    (mkDb [mkUser 1 (Some "User_AAAA") "wallet-1" 10] 2
          [mkRoom 1 "Public Chat" true true None 20] 2
          [mkRoomMember 1 1 1 20] 2
          [mkMessage 1 1 1 "hello" 4000 (Some 5000)] 2
          [] 1).

(** Room 1 with 52 messages, posted one millisecond apart from 1001
    on, stored in the table from the latest to the earliest. *)
Definition busy_room : State :=
  set_db
    (mkDb (users (db one_expiring)) 2 (rooms (db one_expiring)) 2
          (roomMembers (db one_expiring)) 2
          (reverse (List.map (fun i => mkMessage i 1 1 "m" (1000 + i) None)
                             (seqZ 1 52))) 53
          [] 1)
    one_expiring.

(** [one_expiring] with a reaction of user 1 on its message. *)
Definition one_reaction : State :=
  set_db
    (mkDb (users (db one_expiring)) 2 (rooms (db one_expiring)) 2
          (roomMembers (db one_expiring)) 2 (messages (db one_expiring)) 2
          [mkReaction 1 1 1 "+1" 4500] 2)
    one_expiring.

(** A stand-in for the two library calls, to run the routes: the keys
    are the strings of eight characters, a signature has two characters
    (any other size is rejected by an exception), and ["ok"] is the one
    that verifies. *)
Definition toy_crypto : Crypto :=
  {| PublicKey_ok := fun w => Nat.eqb (String.length w) 8;
     nacl_sign_detached_verify := fun _ signature _ =>
       if Nat.eqb (String.length signature) 2
       then Ret (String.eqb signature "ok")
       else Throw "bad signature size" |}.

(** The state after [POST /api/auth/nonce] for ["wallet-1"] at 1000. *)
Definition challenged : State :=
  fst (post_auth_nonce (H := toy_crypto) 1000 "abc" "wallet-1" init).

(** ** Integrity of the tables *)

(** What the constraints of the schema and the [serial] sequences give:
    identifiers below the sequence of their table and unique in it, one
    user per wallet, at most one public room, and every reference of a
    row pointing at a row that exists. *)
Record Integrity (d : Db) : Prop := mkIntegrity {
  int_users_seq : 0 < users_seq d;
  int_user_ids : ∀ u, In u (users d) → 0 < u_id u < users_seq d;
  int_room_ids : ∀ r, In r (rooms d) → r_id r < rooms_seq d;
  int_member_ids : ∀ rm, In rm (roomMembers d) → rm_id rm < roomMembers_seq d;
  int_message_ids : ∀ m, In m (messages d) → m_id m < messages_seq d;
  int_reaction_ids : ∀ re, In re (reactions d) → re_id re < reactions_seq d;
  int_user_keys : NoDup (List.map u_id (users d));
  int_room_keys : NoDup (List.map r_id (rooms d));
  int_member_keys : NoDup (List.map rm_id (roomMembers d));
  int_message_keys : NoDup (List.map m_id (messages d));
  int_reaction_keys : NoDup (List.map re_id (reactions d));
  int_wallets : NoDup (List.map u_walletAddress (users d));
  int_public : (length (List.filter r_isPublic (rooms d)) ≤ 1)%nat;
  int_creators : ∀ r uid, In r (rooms d) → r_createdBy r = Some uid →
                          user_exists d uid = true;
  int_members : ∀ rm, In rm (roomMembers d) →
                      room_exists d (rm_roomId rm) = true
                      ∧ user_exists d (rm_userId rm) = true;
  int_messages : ∀ m, In m (messages d) →
                      room_exists d (m_roomId m) = true
                      ∧ user_exists d (m_userId m) = true;
  int_reactions : ∀ re, In re (reactions d) →
                        message_exists d (re_messageId re) = true
                        ∧ user_exists d (re_userId re) = true
}.

(** A handler that keeps a property of the database, whether it
    returns or throws. *)
Definition db_keeps (P : Db → Prop) {A} (m : M A) : Prop :=
  hoare (fun s => P (db s)) m (fun _ s => P (db s)) (fun s => P (db s)).

(** ** A concrete run *)

(** Two wallets sign in, both connections authenticate, the first posts
    a message that expires, the second reacts to it, and the first
    opens a private chat with the second. *)
Definition demo_requests : list Request :=
  [ POST_auth_nonce 1000 "abc" "wallet-1";
    POST_auth_verify 2000 "session-1" "wallet-1" "ok" None;
    POST_auth_nonce 2100 "def" "wallet-2";
    POST_auth_verify 2200 "session-2" "wallet-2" "ok" (Some "bob");
    socket_auth 3000 "socket-1" "session-1";
    socket_auth 3100 "socket-2" "session-2";
    socket_room_op 4000 "socket-1" (send_message 1 "hello" (Some 5000));
    socket_room_op 4100 "socket-2" (add_reaction 1 "+1" 1);
    socket_create_private_chat 4200 "socket-1" "wallet-2" ].

Definition serve_all `{Crypto} (reqs : list Request) (s : State) : State :=
  foldl (fun acc req => serve req acc) s reqs.

Definition demo : State := serve_all (H := toy_crypto) demo_requests init.

(** ** The client's store *)

(** No list of the store shows the same user twice with one emoji. *)
Definition distinct_reactors (store : gmap Z (list Client.Entry)) : Prop :=
  ∀ messageId list, store !! messageId = Some list →
    NoDup (List.map (fun r => (Client.e_userId r, Client.e_emoji r)) list).

(** What the client shows for a message: [messageReactions[id] || []]. *)
Definition shown (store : gmap Z (list Client.Entry)) (messageId : Z)
    : list Client.Entry :=
  default [] (store !! messageId).

(** The upstream of the assistant route, for a run: it echoes a
    question, returns no content for ["?"] and fails on ["!"]. *)
Definition toy_assistant : Assistant :=
  {| completions_create := fun m =>
       if String.eqb m "!" then Throw "429 rate limit"
       else if String.eqb m "?" then Ret None
       else Ret (Some ("You asked: " +:+ m)) |}.

(** The two events that edit the store in place. *)
Definition edits_store (e : Event) : bool :=
  match e with
  | EvReactionAdded _ _ _ _ _ _ | EvReactionRemoved _ _ _ => true
  | _ => false
  end.

(** [demo], then a third wallet signs in and authenticates a
    connection; it is a member of the public room only. *)
Definition crowd : State :=
  serve_all (H := toy_crypto)
    [ POST_auth_nonce 4300 "ghi" "wallet-3";
      POST_auth_verify 4400 "session-3" "wallet-3" "ok" (Some "carol");
      socket_auth 4500 "socket-3" "session-3" ]
    demo.

(** * Properties *)

(** ** Helper lemmas on rows and queries *)

Lemma falsy_string_false (v : string) : v ≠ "" → falsy_string v = false.
Proof. intros Hv. unfold falsy_string. by apply String.eqb_neq. Qed.

Lemma first_row_filter_None {A} (f : A → bool) (rows : list A) :
  first_row (List.filter f rows) = None ↔ existsb f rows = false.
Proof.
  unfold first_row. induction rows as [|x rows IH]; simpl; [done|].
  destruct (f x); simpl; [split; discriminate | exact IH].
Qed.

Lemma first_row_filter_Some {A} (f : A → bool) (rows : list A) (x : A) :
  first_row (List.filter f rows) = Some x → In x rows ∧ f x = true.
Proof.
  unfold first_row. intros Hx. apply filter_In.
  destruct (List.filter f rows) as [|y l]; simplify_eq/=. by left.
Qed.

Lemma getUserByWallet_wallet (d : Db) (w : string) (u : User) :
  getUserByWallet d w = Some u → u_walletAddress u = w.
Proof.
  intros Hu. apply first_row_filter_Some in Hu as [_ Hu].
  by apply String.eqb_eq.
Qed.

Lemma within_ttl (now issued : Z) :
  now - issued ≤ 300000 → (now - issued >? nonce_ttl) = false.
Proof. intros Hle. rewrite Z.gtb_ltb. apply Z.ltb_ge. unfold nonce_ttl. lia. Qed.

Lemma beyond_ttl (now issued : Z) :
  now - issued > 300000 → (now - issued >? nonce_ttl) = true.
Proof. intros Hgt. rewrite Z.gtb_ltb. apply Z.ltb_lt. unfold nonce_ttl. lia. Qed.

(** ** The authentication routes *)

Section Authentication.
Context `{Crypto}.

Lemma verify_accepts now sessionId w signature username s stored :
  w ≠ "" → signature ≠ "" →
  nonceStore s !! w = Some stored →
  now - timestamp stored ≤ 300000 →
  PublicKey_ok w = true →
  nacl_sign_detached_verify (message stored) signature w = Ret true →
  ∃ user s',
    post_auth_verify now sessionId w signature username s
      = (s', mkResponse 200 (BodyUser user))
    ∧ u_walletAddress user = w
    ∧ nonceStore s' = delete w (nonceStore s)
    ∧ sessions s' !! sessionId = Some (u_id user).
Proof.
  intros Hw Hsig Hst Httl Hpk Hok. unfold post_auth_verify.
  rewrite (falsy_string_false _ Hw), (falsy_string_false _ Hsig), Hst. simpl.
  rewrite (within_ttl _ _ Httl).
  rewrite Hpk, Hok. simpl.
  destruct (getUserByWallet (db s) w) as [user|] eqn:Hu.
  - exists user. eexists. split; [reflexivity|]. simpl.
    split; [by eapply getUserByWallet_wallet|].
    split; [done|]. apply lookup_insert_eq.
  - unfold createUser.
    apply first_row_filter_None in Hu. rewrite Hu.
    eexists. eexists. split; [reflexivity|]. simpl.
    split; [done|]. split; [done|]. apply lookup_insert_eq.
Qed.

(** C2. For a valid identity key, a challenge issued and then answered
    within the lifetime of the nonce with a signature that verifies
    over the stored message is accepted: the route answers 200 with
    the user of that wallet and binds the session to it. The
    challenge is evicted by that success, so a second answer for the
    same key, whatever its signature, is rejected with "No nonce
    found". *)
Theorem challenge_verifies_exactly_once
    now0 rnd w s now1 sessionId signature username
    now2 sessionId2 signature2 username2 :
  w ≠ "" → PublicKey_ok w = true →
  signature ≠ "" → signature2 ≠ "" →
  now1 - now0 ≤ 300000 →
  nacl_sign_detached_verify (challenge_message rnd w) signature w = Ret true →
  let '(s0, r0) := post_auth_nonce now0 rnd w s in
  let '(s1, r1) := post_auth_verify now1 sessionId w signature username s0 in
  let '(s2, r2) := post_auth_verify now2 sessionId2 w signature2 username2 s1 in
  r0 = mkResponse 200 (BodyNonce (challenge_message rnd w) rnd)
  ∧ (∃ user, r1 = mkResponse 200 (BodyUser user)
             ∧ u_walletAddress user = w
             ∧ sessions s1 !! sessionId = Some (u_id user))
  ∧ nonceStore s1 !! w = None
  ∧ r2 = mkResponse 400 (BodyError "No nonce found. Request a nonce first.")
  ∧ s2 = s1.
Proof.
  intros Hw Hpk Hsig Hsig2 Httl Hok.
  unfold post_auth_nonce. rewrite (falsy_string_false _ Hw), Hpk.
  set (s0 := set_nonceStore _ s).
  assert (Hst : nonceStore s0 !! w
                = Some (mkChallenge rnd (challenge_message rnd w) now0))
    by (subst s0; simpl; apply lookup_insert_eq).
  destruct (verify_accepts now1 sessionId w signature username s0 _
              Hw Hsig Hst Httl Hpk Hok) as (user & s1 & -> & Hwal & Hns & Hsess).
  assert (Hgone : nonceStore s1 !! w = None)
    by (rewrite Hns; apply lookup_delete_eq).
  unfold post_auth_verify.
  rewrite (falsy_string_false _ Hw), (falsy_string_false _ Hsig2), Hgone. simpl.
  repeat split; eauto.
Qed.

(** C6. When the stored challenge is still alive and the signature
    does not verify, the route answers 401 "Invalid signature" and
    leaves the whole state, the nonce store included, as it was; a
    retry within the lifetime with a signature that verifies over the
    same stored message is then accepted. *)
Theorem invalid_signature_keeps_challenge
    now sessionId w signature username s stored
    now' signature' username' :
  w ≠ "" → signature ≠ "" →
  nonceStore s !! w = Some stored →
  now - timestamp stored ≤ 300000 →
  PublicKey_ok w = true →
  nacl_sign_detached_verify (message stored) signature w = Ret false →
  let '(s1, r1) := post_auth_verify now sessionId w signature username s in
  r1 = mkResponse 401 (BodyError "Invalid signature")
  ∧ s1 = s
  ∧ nonceStore s1 !! w = Some stored
  ∧ (signature' ≠ "" → now' - timestamp stored ≤ 300000 →
     nacl_sign_detached_verify (message stored) signature' w = Ret true →
     ∃ user, snd (post_auth_verify now' sessionId w signature' username' s1)
             = mkResponse 200 (BodyUser user)).
Proof.
  intros Hw Hsig Hst Httl Hpk Hbad. unfold post_auth_verify at 1.
  rewrite (falsy_string_false _ Hw), (falsy_string_false _ Hsig), Hst. simpl.
  rewrite (within_ttl _ _ Httl).
  rewrite Hpk, Hbad. simpl. repeat split; [done|].
  intros Hsig' Httl' Hok'.
  destruct (verify_accepts now' sessionId w signature' username' s stored
              Hw Hsig' Hst Httl' Hpk Hok') as (user & s' & -> & _).
  by exists user.
Qed.

(** C7. An answer that arrives more than five minutes (300000 ms)
    after the challenge was issued is rejected with "Nonce expired",
    whatever the signature is worth, and the challenge of that key is
    removed from the nonce store; nothing else changes. *)
Theorem expired_challenge_rejected_and_evicted
    now sessionId w signature username s stored :
  w ≠ "" → signature ≠ "" →
  nonceStore s !! w = Some stored →
  now - timestamp stored > 300000 →
  let '(s1, r1) := post_auth_verify now sessionId w signature username s in
  r1 = mkResponse 400 (BodyError "Nonce expired. Request a new nonce.")
  ∧ nonceStore s1 = delete w (nonceStore s)
  ∧ nonceStore s1 !! w = None
  ∧ sessions s1 = sessions s ∧ db s1 = db s.
Proof.
  intros Hw Hsig Hst Httl. unfold post_auth_verify.
  rewrite (falsy_string_false _ Hw), (falsy_string_false _ Hsig), Hst. simpl.
  rewrite (beyond_ttl _ _ Httl).
  simpl. repeat split. apply lookup_delete_eq.
Qed.

End Authentication.

(** ** Running a handler *)

Lemma truthy_id_None (ids : gmap string Z) (socketId : string) :
  ids !! socketId = None → truthy_id (ids !! socketId) = None.
Proof. by intros ->. Qed.

Lemma truthy_id_Some (ids : gmap string Z) (socketId : string) (userId : Z) :
  ids !! socketId = Some userId → userId ≠ 0 →
  truthy_id (ids !! socketId) = Some userId.
Proof. intros -> Hne. by destruct userId. Qed.

(** Unfolds the monad down to the state-passing function it denotes. *)
Ltac unfold_handler :=
  unfold run, on_room_op, on_join_room, on_send_message, on_add_reaction,
    on_remove_reaction, on_typing, on_stop_typing, on_create_private_chat,
    sweep_tick, not_authenticated, socket_join, try_catch, query, statement,
    deref, throw, emit, modify, get_state, console, skip,
    mbind, mret, M_bind, M_ret.

(** ** The relay *)

(** C3. On a connection that has no entry in [socketToUser], each of
    [join_room], [send_message], [add_reaction] and [remove_reaction]
    sends one [error] event "Not authenticated" to that connection and
    does nothing else; [typing] and [stop_typing] do nothing at all, and
    send no error either. In every case the state is untouched and
    nothing is sent to a room. *)
Theorem unbound_connection_is_refused now socketId op s :
  socketToUser s !! socketId = None →
  run (on_room_op now socketId op) s
  = (s, match op with
        | typing _ | stop_typing _ => []
        | _ => [(ToSocket socketId, EvError "Not authenticated")]
        end).
Proof.
  intros Hnone. apply truthy_id_None in Hnone.
  destruct op; unfold_handler; simpl; by rewrite Hnone.
Qed.

(** C3, as stated, fails for [typing]: on an unbound connection the
    handler sends no error. *)
Lemma typing_unbound_sends_no_error :
  snd (run (on_room_op 0 "socket-9" (typing 1)) init) = []
  ∧ snd (run (on_room_op 0 "socket-9" (typing 1)) init)
    ≠ [(ToSocket "socket-9", EvError "Not authenticated")].
Proof. split; [reflexivity | discriminate]. Qed.

Lemma unbound_connection_is_refused_witness :
  run (on_room_op 7 "socket-9" (send_message 1 "hello" None)) init
  = (init, [(ToSocket "socket-9", EvError "Not authenticated")]).
Proof.
  apply (unbound_connection_is_refused 7 "socket-9" (send_message 1 "hello" None) init).
  reflexivity.
Defined.

(** The proofs below run the handlers with the storage calls kept
    folded, and use the facts proved about each call. *)
#[local] Arguments getUser : simpl never.
#[local] Arguments getUserByWallet : simpl never.
#[local] Arguments createUser : simpl never.
#[local] Arguments getRoom : simpl never.
#[local] Arguments createRoom : simpl never.
#[local] Arguments isRoomMember : simpl never.
#[local] Arguments findPrivateRoom : simpl never.
#[local] Arguments addRoomMember : simpl never.
#[local] Arguments getRoomMembers : simpl never.
#[local] Arguments createMessage : simpl never.
#[local] Arguments getRoomMessages : simpl never.
#[local] Arguments getMessagesReactions : simpl never.
#[local] Arguments deleteExpiredMessages : simpl never.
#[local] Arguments addReaction : simpl never.
#[local] Arguments removeReaction : simpl never.
#[local] Arguments pretty : simpl never.

(** ** Reactions *)

Lemma same_reaction_spec messageId userId emoji re :
  same_reaction messageId userId emoji re = true
  ↔ re_messageId re = messageId ∧ re_userId re = userId ∧ re_emoji re = emoji.
Proof.
  unfold same_reaction.
  rewrite !andb_true_iff, !Z.eqb_eq, String.eqb_eq. tauto.
Qed.

Lemma filter_none_id {A} (f : A → bool) (l : list A) :
  List.filter f l = [] → List.filter (fun x => negb (f x)) l = l.
Proof.
  induction l as [|x l IH]; simpl; [done|].
  destruct (f x); simpl; [discriminate|]. intros Hl. by rewrite IH.
Qed.

Lemma removeReaction_spec messageId userId emoji d :
  let '(removed, d') := removeReaction messageId userId emoji d in
  (removed = true ↔ rows_for d messageId userId emoji ≠ [])
  ∧ rows_for d' messageId userId emoji = []
  ∧ (∀ re, In re (reactions d')
           ↔ In re (reactions d) ∧ same_reaction messageId userId emoji re = false)
  ∧ (removed = false → d' = d).
Proof.
  unfold removeReaction, rows_for. simpl.
  set (f := same_reaction messageId userId emoji).
  split; [|split; [|split]].
  - destruct (List.filter f (reactions d)); simpl; [split; [discriminate | done] | done].
  - induction (reactions d) as [|x l IH]; simpl; [done|].
    destruct (f x) eqn:Hfx; simpl; rewrite ?Hfx; apply IH.
  - intros re. rewrite filter_In, negb_true_iff. done.
  - destruct (List.filter f (reactions d)) eqn:Hrows; [|discriminate].
    intros _. rewrite (filter_none_id f _ Hrows). by destruct d.
Qed.

(** C9. On an authenticated connection, [remove_reaction] deletes the
    rows of the caller's (message, user, emoji) triple; [removeReaction]
    answers [true] exactly when there was such a row, and the handler
    broadcasts [reaction_removed] to the room exactly in that case. When
    there was none, the state is unchanged and nothing is sent. *)
Theorem remove_reaction_broadcasts_iff_removed
    socketId messageId emoji roomId s userId :
  socketToUser s !! socketId = Some userId → userId ≠ 0 →
  let '(removed, d') := removeReaction messageId userId emoji (db s) in
  let '(s', out) := run (on_remove_reaction socketId messageId emoji roomId) s in
  (removed = true
   ↔ ∃ re, In re (reactions (db s)) ∧ re_messageId re = messageId
           ∧ re_userId re = userId ∧ re_emoji re = emoji)
  ∧ db s' = d'
  ∧ rows_for (db s') messageId userId emoji = []
  ∧ (removed = true
     → out = [(ToRoom (pretty roomId), EvReactionRemoved messageId userId emoji)])
  ∧ (removed = false → out = [] ∧ s' = s).
Proof.
  intros Hbound Hne.
  pose proof (removeReaction_spec messageId userId emoji (db s)) as Hspec.
  unfold_handler. rewrite (truthy_id_Some _ _ _ Hbound Hne).
  destruct (removeReaction messageId userId emoji (db s)) as [removed d'].
  destruct Hspec as (Hiff & Hgone & _ & Hsame). simpl.
  assert (Hrows : removed = true
     ↔ ∃ re, In re (reactions (db s)) ∧ re_messageId re = messageId
             ∧ re_userId re = userId ∧ re_emoji re = emoji).
  { rewrite Hiff. unfold rows_for. split.
    - destruct (List.filter _ _) as [|re l] eqn:Hl; [done|]. intros _.
      assert (Hin : In re (List.filter (same_reaction messageId userId emoji)
                                       (reactions (db s))))
        by (rewrite Hl; by left).
      apply filter_In in Hin as [Hin Hre]. apply same_reaction_spec in Hre.
      by exists re.
    - intros (re & Hin & Hre) Hnil.
      assert (Hin' : In re (List.filter (same_reaction messageId userId emoji)
                                        (reactions (db s))))
        by (apply filter_In; split; [done | by apply same_reaction_spec]).
      by rewrite Hnil in Hin'. }
  destruct removed; simpl.
  - split; [exact Hrows|]. split; [done|]. split; [done|].
    split; [done | discriminate].
  - split; [exact Hrows|]. split; [done|]. split; [done|].
    split; [discriminate|]. intros _. split; [done|].
    rewrite (Hsame eq_refl). by destruct s.
Qed.

(** What [addReaction] does, by cases on the rows already stored for
    the triple and on the two references of the new row. *)
Lemma addReaction_cases now messageId userId emoji d :
  (∃ existing rest,
      rows_for d messageId userId emoji = existing :: rest
      ∧ addReaction now messageId userId emoji d = (Ret existing, d))
  ∨ (rows_for d messageId userId emoji = []
     ∧ message_exists d messageId && user_exists d userId = false
     ∧ ∃ err, addReaction now messageId userId emoji d = (Throw err, d))
  ∨ (rows_for d messageId userId emoji = []
     ∧ message_exists d messageId && user_exists d userId = true
     ∧ ∃ d',
         addReaction now messageId userId emoji d
         = (Ret (mkReaction (reactions_seq d) messageId userId emoji now), d')
         ∧ reactions d'
           = reactions d ++ [mkReaction (reactions_seq d) messageId userId emoji now]).
Proof.
  unfold addReaction, rows_for.
  destruct (List.filter _ (reactions d)) as [|existing rest] eqn:Hrows; simpl.
  - right. destruct (message_exists d messageId && user_exists d userId).
    + right. repeat split. eexists. split; reflexivity.
    + left. repeat split. by eexists.
  - left. by exists existing, rest.
Qed.

Lemma rows_for_app_one d d' re messageId userId emoji :
  reactions d' = reactions d ++ [re] →
  rows_for d' messageId userId emoji
  = rows_for d messageId userId emoji
    ++ (if same_reaction messageId userId emoji re then [re] else []).
Proof. intros Hd'. unfold rows_for. rewrite Hd', List.filter_app. done. Qed.

Lemma addReaction_preserves now messageId userId emoji d :
  at_most_one_per_triple d →
  at_most_one_per_triple (snd (addReaction now messageId userId emoji d)).
Proof.
  intros Hinv.
  destruct (addReaction_cases now messageId userId emoji d)
    as [(existing & rest & _ & ->) | [(_ & _ & err & ->) | (Hnone & _ & d' & -> & Hd')]];
    simpl; try done.
  intros m u e. rewrite (rows_for_app_one d d' _ m u e Hd').
  destruct (same_reaction m u e _) eqn:Hsame.
  - apply same_reaction_spec in Hsame as (Hm & Hu & He). simpl in Hm, Hu, He.
    subst m u e. rewrite Hnone. simpl. lia.
  - rewrite app_nil_r. apply Hinv.
Qed.

(** C8. In a store that holds at most one reaction row per (message,
    user, emoji) triple, for a message and a user that exist: calling
    [addReaction] twice with the same triple leaves exactly one row for
    it, the second call changes nothing and returns the row the first
    one returned. And every sequence of [addReaction] calls keeps the
    store at one row per triple at most. *)
Theorem addReaction_idempotent now1 now2 messageId userId emoji d calls :
  at_most_one_per_triple d →
  message_exists d messageId = true →
  user_exists d userId = true →
  let '(r1, d1) := addReaction now1 messageId userId emoji d in
  let '(r2, d2) := addReaction now2 messageId userId emoji d1 in
  length (rows_for d2 messageId userId emoji) = 1%nat
  ∧ d2 = d1
  ∧ (∃ row, r1 = Ret row ∧ r2 = Ret row
            ∧ rows_for d2 messageId userId emoji = [row])
  ∧ at_most_one_per_triple (addReactions calls d).
Proof.
  intros Hinv Hmsg Husr.
  assert (Hseq : at_most_one_per_triple (addReactions calls d)).
  { clear Hmsg Husr. revert d Hinv. unfold addReactions.
    induction calls as [|[[[now m] u] e] calls IH]; intros d Hinv; simpl; [done|].
    apply IH. by apply addReaction_preserves. }
  destruct (addReaction_cases now1 messageId userId emoji d)
    as [(existing & rest & Hrows & ->) | [(_ & Hfk & _) | (Hnone & _ & d1 & -> & Hd1)]].
  - pose proof (Hinv messageId userId emoji) as Hle. rewrite Hrows in Hle.
    destruct rest; [|simpl in Hle; lia].
    unfold addReaction. fold (rows_for d messageId userId emoji).
    rewrite Hrows. simpl. rewrite Hrows. eauto 10.
  - by rewrite Hmsg, Husr in Hfk.
  - pose proof (rows_for_app_one d d1 _ messageId userId emoji Hd1) as Hrows.
    rewrite Hnone in Hrows.
    replace (same_reaction messageId userId emoji _) with true in Hrows
      by (symmetry; by apply same_reaction_spec).
    simpl in Hrows.
    unfold addReaction. fold (rows_for d1 messageId userId emoji).
    rewrite Hrows. simpl. rewrite Hrows. eauto 10.
Qed.

(** ** Membership and messages *)

Lemma isRoomMember_spec d roomId userId :
  isRoomMember d roomId userId = true
  ↔ ∃ rm, In rm (roomMembers d) ∧ rm_roomId rm = roomId ∧ rm_userId rm = userId.
Proof.
  unfold isRoomMember. rewrite existsb_exists. split.
  - intros (rm & Hin & Hrm). apply andb_true_iff in Hrm as [Hr Hu].
    exists rm. by rewrite <- (proj1 (Z.eqb_eq _ _) Hr), <- (proj1 (Z.eqb_eq _ _) Hu).
  - intros (rm & Hin & <- & <-). exists rm. by rewrite !Z.eqb_refl.
Qed.

Lemma member_references d roomId userId :
  memberships_reference d = true →
  isRoomMember d roomId userId = true →
  room_exists d roomId = true ∧ user_exists d userId = true.
Proof.
  intros Hfk Hmem. apply isRoomMember_spec in Hmem as (rm & Hin & <- & <-).
  unfold memberships_reference in Hfk. rewrite forallb_forall in Hfk.
  by apply andb_true_iff, Hfk.
Qed.

Lemma getUser_of_exists d userId :
  user_exists d userId = true →
  ∃ user, getUser d userId = Some user ∧ u_id user = userId ∧ In user (users d).
Proof.
  unfold user_exists, getUser. intros Hex.
  destruct (first_row (List.filter (fun u => u_id u =? userId) (users d)))
    as [user|] eqn:Hrow.
  - exists user. split; [done|].
    apply first_row_filter_Some in Hrow as [Hin Hid].
    split; [by apply Z.eqb_eq | done].
  - apply first_row_filter_None in Hrow. congruence.
Qed.

Lemma user_exists_of_getUser d userId user :
  getUser d userId = Some user → user_exists d userId = true ∧ u_id user = userId.
Proof.
  unfold getUser, user_exists. intros Hrow.
  apply first_row_filter_Some in Hrow as [Hin Hid].
  split; [|by apply Z.eqb_eq]. apply existsb_exists. by exists user.
Qed.

(** C5. On an authenticated connection, [send_message] into a room the
    user has no membership row for answers [error] "Not a member of
    this room" to the sender and leaves the state, hence the [messages]
    table, as it was. When the user is a member (and the membership
    rows reference existing rooms and users, as the schema enforces),
    one row is appended to [messages] with the next value of the
    table's sequence as its id and the server's clock as its creation
    time, and that row is what [new_message] carries to the room. *)
Theorem send_message_requires_membership
    now socketId roomId content expiresAt s userId :
  socketToUser s !! socketId = Some userId → userId ≠ 0 →
  let '(s', out) := run (on_send_message now socketId roomId content expiresAt) s in
  if isRoomMember (db s) roomId userId
  then
    memberships_reference (db s) = true →
    ∃ user,
      getUser (db s) userId = Some user
      ∧ messages (db s')
        = messages (db s)
          ++ [mkMessage (messages_seq (db s)) roomId userId content now expiresAt]
      ∧ out = [(ToRoom (pretty roomId),
                EvNewMessage (messages_seq (db s)) roomId userId (u_username user)
                             content now expiresAt)]
  else
    s' = s ∧ out = [(ToSocket socketId, EvError "Not a member of this room")].
Proof.
  intros Hbound Hne.
  destruct (isRoomMember (db s) roomId userId) eqn:Hmem.
  - destruct (memberships_reference (db s)) eqn:Hfk;
      [|by destruct (run _ s) as [s' out]].
    destruct (member_references _ _ _ Hfk Hmem) as [Hroom Huser].
    destruct (getUser_of_exists _ _ Huser) as (user & Hget & _).
    unfold_handler. rewrite (truthy_id_Some _ _ _ Hbound Hne), Hmem. simpl.
    unfold createMessage. rewrite Hroom, Huser. simpl.
    unfold getUser in *. simpl. rewrite Hget. simpl.
    intros _. by exists user.
  - unfold_handler. by rewrite (truthy_id_Some _ _ _ Hbound Hne), Hmem.
Qed.

(** ** Pairwise rooms *)

Lemma join_members_rooms_In d keep room :
  In room (join_members_rooms d keep)
  ↔ ∃ rm, In rm (roomMembers d) ∧ In room (rooms d)
          ∧ rm_roomId rm = r_id room ∧ keep rm room = true.
Proof.
  unfold join_members_rooms. rewrite in_flat_map. split.
  - intros (rm & Hrm & Hroom). apply filter_In in Hroom as [Hroom Hkeep].
    apply andb_true_iff in Hkeep as [Hid Hkeep]. apply Z.eqb_eq in Hid. eauto 10.
  - intros (rm & Hrm & Hroom & Hid & Hkeep). exists rm. split; [done|].
    apply filter_In. split; [done|]. apply andb_true_iff. split; [|done].
    by apply Z.eqb_eq.
Qed.

(** The candidates of [findPrivateRoom]: the rooms of [userId1] that
    are neither group nor public. *)
Lemma private_candidate_In d userId1 room :
  In room (join_members_rooms d (fun rm r =>
     (rm_userId rm =? userId1) && negb (r_isGroup r) && negb (r_isPublic r)))
  ↔ In room (rooms d) ∧ r_isGroup room = false ∧ r_isPublic room = false
    ∧ isRoomMember d (r_id room) userId1 = true.
Proof.
  rewrite join_members_rooms_In, isRoomMember_spec. split.
  - intros (rm & Hrm & Hroom & Hid & Hkeep).
    apply andb_true_iff in Hkeep as [Hkeep Hpub].
    apply andb_true_iff in Hkeep as [Husr Hgrp].
    apply negb_true_iff in Hpub, Hgrp. apply Z.eqb_eq in Husr. eauto 10.
  - intros (Hroom & Hgrp & Hpub & rm & Hrm & Hid & Husr).
    exists rm. rewrite Hgrp, Hpub, Husr, Z.eqb_refl. done.
Qed.

Lemma findPrivateRoom_Some d userId1 userId2 room :
  findPrivateRoom d userId1 userId2 = Some room →
  In room (rooms d) ∧ r_isGroup room = false ∧ r_isPublic room = false
  ∧ isRoomMember d (r_id room) userId1 = true
  ∧ isRoomMember d (r_id room) userId2 = true.
Proof.
  unfold findPrivateRoom. intros Hfind. apply find_some in Hfind as [Hin Hmem].
  apply private_candidate_In in Hin. tauto.
Qed.

Lemma findPrivateRoom_None d userId1 userId2 :
  findPrivateRoom d userId1 userId2 = None →
  ∀ room, In room (rooms d) → r_isGroup room = false → r_isPublic room = false →
          isRoomMember d (r_id room) userId1 = true →
          isRoomMember d (r_id room) userId2 = false.
Proof.
  unfold findPrivateRoom. intros Hfind room Hroom Hgrp Hpub Hmem.
  apply (find_none _ _ Hfind). by apply private_candidate_In.
Qed.

Lemma findPrivateRoom_finds d userId1 userId2 room :
  In room (rooms d) → r_isGroup room = false → r_isPublic room = false →
  isRoomMember d (r_id room) userId1 = true →
  isRoomMember d (r_id room) userId2 = true →
  ∃ found, findPrivateRoom d userId1 userId2 = Some found.
Proof.
  intros Hroom Hgrp Hpub Hm1 Hm2.
  destruct (findPrivateRoom d userId1 userId2) as [found|] eqn:Hfind; [by exists found|].
  pose proof (findPrivateRoom_None _ _ _ Hfind room Hroom Hgrp Hpub Hm1). congruence.
Qed.

(** After the three inserts of [create_private_chat] (the room, then a
    membership row for each of the two users), the search finds a room
    with the identifier of the room just created. *)
Lemma findPrivateRoom_after_create d d' userId1 userId2 room row1 row2 :
  findPrivateRoom d userId1 userId2 = None →
  rooms d' = rooms d ++ [room] →
  roomMembers d' = roomMembers d ++ [row1; row2] →
  r_isGroup room = false → r_isPublic room = false →
  rm_roomId row1 = r_id room → rm_userId row1 = userId1 →
  rm_roomId row2 = r_id room → rm_userId row2 = userId2 →
  ∃ found, findPrivateRoom d' userId1 userId2 = Some found
           ∧ r_id found = r_id room.
Proof.
  intros Hnone Hrooms Hrows Hgrp Hpub Hr1 Hu1 Hr2 Hu2.
  assert (Hm1 : isRoomMember d' (r_id room) userId1 = true).
  { apply isRoomMember_spec. exists row1. rewrite Hrows, in_app_iff. simpl. tauto. }
  assert (Hm2 : isRoomMember d' (r_id room) userId2 = true).
  { apply isRoomMember_spec. exists row2. rewrite Hrows, in_app_iff. simpl. tauto. }
  assert (Hin : In room (rooms d'))
    by (rewrite Hrooms, in_app_iff; simpl; tauto).
  destruct (findPrivateRoom_finds d' userId1 userId2 room Hin Hgrp Hpub Hm1 Hm2)
    as [found Hfound].
  exists found. split; [done|].
  apply findPrivateRoom_Some in Hfound as (Hfin & Hfg & Hfp & Hf1 & Hf2).
  apply isRoomMember_spec in Hf1 as (rm1 & Hrm1 & Hid1 & Husr1).
  apply isRoomMember_spec in Hf2 as (rm2 & Hrm2 & Hid2 & Husr2).
  rewrite Hrows, in_app_iff in Hrm1, Hrm2. rewrite Hrooms, in_app_iff in Hfin.
  simpl in Hrm1, Hrm2, Hfin.
  destruct Hfin as [Hfin | [<- | []]]; [|done].
  destruct Hrm1 as [Hrm1 | [<- | [<- | []]]]; [|congruence..].
  destruct Hrm2 as [Hrm2 | [<- | [<- | []]]]; [|congruence..].
  assert (isRoomMember d (r_id found) userId2 = false) as Hno.
  { apply (findPrivateRoom_None _ _ _ Hnone found Hfin Hfg Hfp).
    apply isRoomMember_spec. by exists rm1. }
  assert (isRoomMember d (r_id found) userId2 = true) as Hyes
    by (apply isRoomMember_spec; by exists rm2).
  congruence.
Qed.

Lemma getUserByWallet_exists d w user :
  getUserByWallet d w = Some user → user_exists d (u_id user) = true.
Proof.
  intros Hrow. apply first_row_filter_Some in Hrow as [Hin _].
  apply existsb_exists. exists user. by rewrite Z.eqb_refl.
Qed.

Lemma create_private_chat_existing now socketId w s userId recipient room :
  socketToUser s !! socketId = Some userId → userId ≠ 0 →
  getUserByWallet (db s) w = Some recipient →
  findPrivateRoom (db s) userId (u_id recipient) = Some room →
  run (on_create_private_chat now socketId w) s
  = (set_socketRooms (fun rs => {[ (socketId, pretty (r_id room)) ]} ∪ rs) s,
     [(ToSocket socketId, EvRoomCreated room)]).
Proof.
  intros Hbound Hne Hrcp Hfind. unfold_handler.
  rewrite (truthy_id_Some _ _ _ Hbound Hne), Hrcp. simpl. by rewrite Hfind.
Qed.

Lemma create_private_chat_fresh now socketId w s userId recipient currentUser :
  socketToUser s !! socketId = Some userId → userId ≠ 0 →
  getUserByWallet (db s) w = Some recipient →
  getUser (db s) userId = Some currentUser →
  findPrivateRoom (db s) userId (u_id recipient) = None →
  ∃ room row1 row2 d',
    run (on_create_private_chat now socketId w) s
    = (set_socketRooms (fun rs => {[ (socketId, pretty (r_id room)) ]} ∪ rs)
         (set_db d' s),
       [(ToSocket socketId, EvRoomCreated room)])
    ∧ r_id room = rooms_seq (db s)
    ∧ r_isGroup room = false ∧ r_isPublic room = false
    ∧ users d' = users (db s)
    ∧ rooms d' = rooms (db s) ++ [room]
    ∧ roomMembers d' = roomMembers (db s) ++ [row1; row2]
    ∧ rm_roomId row1 = r_id room ∧ rm_userId row1 = userId
    ∧ rm_roomId row2 = r_id room ∧ rm_userId row2 = u_id recipient.
Proof.
  intros Hbound Hne Hrcp Hcur Hfind.
  destruct (user_exists_of_getUser _ _ _ Hcur) as [Hex1 _].
  pose proof (getUserByWallet_exists _ _ _ Hrcp) as Hex2.
  unfold_handler.
  rewrite (truthy_id_Some _ _ _ Hbound Hne), Hrcp. simpl.
  rewrite Hfind, Hcur. simpl.
  unfold createRoom, insertRoom. rewrite Hex1. simpl.
  unfold addRoomMember, room_exists, user_exists in *. simpl.
  rewrite existsb_app. simpl. rewrite Z.eqb_refl, orb_true_r, Hex1. simpl.
  rewrite existsb_app. simpl. rewrite Z.eqb_refl, orb_true_r, Hex2. simpl.
  exists (mkRoom (rooms_seq (db s))
            (template_of (u_username currentUser) +:+ " & "
             +:+ template_of (u_username recipient))
            false false (Some userId) now),
         (mkRoomMember (roomMembers_seq (db s)) (rooms_seq (db s)) userId now),
         (mkRoomMember (roomMembers_seq (db s) + 1) (rooms_seq (db s))
                       (u_id recipient) now).
  eexists (mkDb _ _ _ _ _ _ _ _ _ _).
  split; [unfold set_socketRooms, set_db; simpl; reflexivity|]. simpl.
  rewrite <- app_assoc. simpl. repeat split; reflexivity.
Qed.

(** C4. [findPrivateRoom] returns a room of the [rooms] table that is
    neither group nor public and has a membership row for each of the
    two users, and it returns nothing only when no such room exists.
    Hence, for a caller bound to an existing user and a recipient whose
    wallet is registered, two successive [create_private_chat] calls
    answer [room_created] with the same room identifier, and the second
    call leaves the database as the first one left it. *)
Theorem pairwise_room_is_found_and_reused :
  (∀ d userA userB,
     match findPrivateRoom d userA userB with
     | Some room =>
         In room (rooms d) ∧ r_isGroup room = false ∧ r_isPublic room = false
         ∧ isRoomMember d (r_id room) userA = true
         ∧ isRoomMember d (r_id room) userB = true
     | None =>
         ¬ ∃ room,
             In room (rooms d) ∧ r_isGroup room = false ∧ r_isPublic room = false
             ∧ isRoomMember d (r_id room) userA = true
             ∧ isRoomMember d (r_id room) userB = true
     end)
  ∧ (∀ now1 now2 socketId recipientWallet s userId recipient currentUser,
       socketToUser s !! socketId = Some userId → userId ≠ 0 →
       getUserByWallet (db s) recipientWallet = Some recipient →
       getUser (db s) userId = Some currentUser →
       let '(s1, out1) := run (on_create_private_chat now1 socketId recipientWallet) s in
       let '(s2, out2) := run (on_create_private_chat now2 socketId recipientWallet) s1 in
       ∃ room1 room2,
         out1 = [(ToSocket socketId, EvRoomCreated room1)]
         ∧ out2 = [(ToSocket socketId, EvRoomCreated room2)]
         ∧ r_id room2 = r_id room1
         ∧ db s2 = db s1).
Proof.
  split.
  - intros d userA userB.
    destruct (findPrivateRoom d userA userB) as [room|] eqn:Hfind.
    + by apply findPrivateRoom_Some.
    + intros (room & Hin & Hgrp & Hpub & HmA & HmB).
      pose proof (findPrivateRoom_None _ _ _ Hfind room Hin Hgrp Hpub HmA).
      congruence.
  - intros now1 now2 socketId w s userId recipient currentUser
           Hbound Hne Hrcp Hcur.
    destruct (findPrivateRoom (db s) userId (u_id recipient)) as [room|] eqn:Hfind.
    + rewrite (create_private_chat_existing now1 _ _ _ _ _ _ Hbound Hne Hrcp Hfind).
      rewrite (create_private_chat_existing now2 _ _ _ userId recipient room);
        try done.
      by exists room, room.
    + destruct (create_private_chat_fresh now1 _ _ _ _ _ _ Hbound Hne Hrcp Hcur Hfind)
        as (room & row1 & row2 & d' & -> & Hid & Hgrp & Hpub & Husers & Hrooms
            & Hrows & Hr1 & Hu1 & Hr2 & Hu2).
      destruct (findPrivateRoom_after_create _ d' _ _ room row1 row2 Hfind
                  Hrooms Hrows Hgrp Hpub Hr1 Hu1 Hr2 Hu2) as (found & Hfound & Hsame).
      rewrite (create_private_chat_existing now2 _ _ _ userId recipient found);
        try done.
      * by exists room, found.
      * simpl. unfold getUserByWallet in *. by rewrite Husers.
Qed.

Lemma pairwise_room_is_found_and_reused_witness :
  let '(s1, out1) := run (on_create_private_chat 30 "socket-1" "wallet-2") two_users in
  let '(s2, out2) := run (on_create_private_chat 40 "socket-1" "wallet-2") s1 in
  ∃ room1 room2,
    out1 = [(ToSocket "socket-1", EvRoomCreated room1)]
    ∧ out2 = [(ToSocket "socket-1", EvRoomCreated room2)]
    ∧ r_id room2 = r_id room1
    ∧ db s2 = db s1.
Proof.
  apply (proj2 pairwise_room_is_found_and_reused 30 40 "socket-1" "wallet-2"
           two_users 1 (mkUser 2 (Some "User_BBBB") "wallet-2" 20)
           (mkUser 1 (Some "User_AAAA") "wallet-1" 10)).
  - vm_compute. reflexivity.
  - lia.
  - reflexivity.
  - reflexivity.
Defined.

(** ** Room history *)

#[local] Instance createdAt_desc_trans : Transitive createdAt_desc.
Proof. intros a b c. unfold createdAt_desc. lia. Qed.

#[local] Instance createdAt_desc_total : Total createdAt_desc.
Proof. intros a b. unfold createdAt_desc. lia. Qed.

Lemma StronglySorted_reverse_desc (l : list Message) :
  StronglySorted createdAt_desc l → StronglySorted oldest_first (reverse l).
Proof.
  induction l as [|x l IH]; intros Hsorted; [constructor|].
  apply StronglySorted_cons in Hsorted as [Hx Hl].
  rewrite reverse_cons. apply StronglySorted_app. split; [|split].
  - intros a b Ha Hb. rewrite elem_of_reverse in Ha.
    apply list_elem_of_singleton in Hb as ->.
    rewrite Forall_forall in Hx. exact (Hx a Ha).
  - by apply IH.
  - repeat constructor.
Qed.

Lemma getRoomMessages_limit_spec d roomId limit :
  let history := getRoomMessages_limit d roomId limit in
  (length history ≤ limit)%nat
  ∧ length history = Nat.min limit (length (room_rows d roomId))
  ∧ StronglySorted oldest_first history
  ∧ ∃ older,
      older ++ history ≡ₚ room_rows d roomId
      ∧ ∀ o m, In o older → In m history → m_createdAt o ≤ m_createdAt m.
Proof.
  unfold getRoomMessages_limit. fold (room_rows d roomId).
  set (sorted := merge_sort createdAt_desc (room_rows d roomId)).
  assert (Hperm : sorted ≡ₚ room_rows d roomId) by apply merge_sort_Permutation.
  assert (Hsorted : StronglySorted createdAt_desc sorted)
    by apply (StronglySorted_merge_sort _).
  simpl. rewrite length_reverse, length_take, (Permutation_length Hperm).
  split; [lia|]. split; [done|]. split.
  - apply StronglySorted_reverse_desc.
    rewrite <- (take_drop limit sorted) in Hsorted.
    by apply StronglySorted_app_1_l in Hsorted.
  - exists (drop limit sorted). split.
    + rewrite reverse_Permutation, (comm (++)), take_drop. done.
    + intros o m Ho Hm. apply list_elem_of_In in Ho, Hm.
      rewrite elem_of_reverse in Hm.
      rewrite <- (take_drop limit sorted) in Hsorted.
      exact (StronglySorted_app_1_elem_of _ _ _ _ _ Hsorted Hm Ho).
Qed.

Lemma room_exists_of_getRoom d roomId room :
  getRoom d roomId = Some room → room_exists d roomId = true ∧ r_id room = roomId.
Proof.
  unfold getRoom, room_exists. intros Hrow.
  apply first_row_filter_Some in Hrow as [Hin Hid].
  split; [|by apply Z.eqb_eq]. apply existsb_exists. by exists room.
Qed.

(** C10. On a connection bound to an existing user, [join_room] on an
    existing room answers [room_joined] whose message list is the
    projection of [getRoomMessages] called without a limit: at most 50
    messages of that room (all of them when the room has 50 or fewer),
    in chronological order, and every message of the room that is left
    out is at least as old as each message listed. *)
Theorem room_joined_lists_last_50 now socketId roomId s userId room :
  socketToUser s !! socketId = Some userId → userId ≠ 0 →
  user_exists (db s) userId = true →
  getRoom (db s) roomId = Some room →
  let history := getRoomMessages (db s) roomId in
  (∃ members reactions user,
      snd (run (on_join_room now socketId roomId) s)
      = [(ToSocket socketId,
          EvRoomJoined room members (List.map message_view history) reactions);
         (ToRoomExceptSender (pretty roomId) socketId,
          EvUserJoinedRoom roomId (u_username user))])
  ∧ (length history ≤ 50)%nat
  ∧ length history = Nat.min 50 (length (room_rows (db s) roomId))
  ∧ (∀ m, In m history → In m (messages (db s)) ∧ m_roomId m = roomId)
  ∧ StronglySorted oldest_first history
  ∧ ∃ older,
      older ++ history ≡ₚ room_rows (db s) roomId
      ∧ ∀ o m, In o older → In m history → m_createdAt o ≤ m_createdAt m.
Proof.
  intros Hbound Hne Huser Hroom history.
  destruct (getRoomMessages_limit_spec (db s) roomId default_limit)
    as (Hlen & Hmin & Hsorted & older & Hperm & Hold).
  fold (getRoomMessages (db s) roomId) in Hlen, Hmin, Hsorted, Hperm, Hold.
  fold history in Hlen, Hmin, Hsorted, Hperm, Hold.
  split; [|split; [exact Hlen|split; [exact Hmin|split; [|split; [exact Hsorted|]]]]].
  - destruct (getUser_of_exists _ _ Huser) as (user & Hget & _).
    destruct (room_exists_of_getRoom _ _ _ Hroom) as [Hex _].
    unfold_handler. rewrite (truthy_id_Some _ _ _ Hbound Hne), Hroom. simpl.
    destruct (isRoomMember (db s) roomId userId) eqn:Hmem; simpl.
    + rewrite Hget. simpl. eauto.
    + unfold addRoomMember. rewrite Hex, Huser. simpl.
      unfold getUser in *. simpl. rewrite Hget. simpl. eauto.
  - intros m Hm.
    assert (Hin : In m (room_rows (db s) roomId)).
    { apply list_elem_of_In. rewrite <- Hperm. apply list_elem_of_In.
      apply in_app_iff. by right. }
    apply filter_In in Hin as [Hin Hid]. by apply Z.eqb_eq in Hid.
  - by exists older.
Qed.

(** ** The expiry sweep *)

Lemma deleteExpiredMessages_spec now d :
  match deleteExpiredMessages now d with
  | (Ret count, d') =>
      count = length (List.filter (expired now) (messages d))
      ∧ messages d' = List.filter (fun m => negb (expired now m)) (messages d)
      ∧ users d' = users d ∧ rooms d' = rooms d
      ∧ roomMembers d' = roomMembers d ∧ reactions d' = reactions d
  | (Throw _, d') =>
      d' = d
      ∧ ∃ m re, In m (messages d) ∧ expired now m = true
                ∧ In re (reactions d) ∧ re_messageId re = m_id m
  end.
Proof.
  unfold deleteExpiredMessages.
  destruct (existsb _ _) eqn:Href; simpl; [|done].
  split; [done|]. apply existsb_exists in Href as (m & Hm & Href).
  apply filter_In in Hm as [Hm Hexp].
  apply existsb_exists in Href as (re & Hre & Hid). apply Z.eqb_eq in Hid.
  by exists m, re.
Qed.

(** No event the server can emit is called [message_deleted]. *)
Lemma no_event_is_message_deleted (e : Event) : event_name e ≠ "message_deleted".
Proof. by destruct e. Qed.

(** The sweep job never emits: it deletes (or fails to) and logs. *)
Lemma sweep_tick_emits_nothing now s :
  let '(s', out) := run (sweep_tick now) s in
  out = []
  ∧ match deleteExpiredMessages now (db s) with
    | (Ret _, d') => s' = set_db d' s
    | (Throw _, _) => s' = s
    end.
Proof.
  pose proof (deleteExpiredMessages_spec now (db s)) as Hspec.
  unfold_handler.
  destruct (deleteExpiredMessages now (db s)) as [[count|err] d']; simpl.
  - by destruct (0 <? count)%nat.
  - destruct Hspec as [-> _]. by destruct s.
Qed.

(** A reaction that still references an expired message makes the
    whole [delete] fail: the sweep changes nothing, at this tick and
    at every later one. *)
Lemma sweep_blocked_by_reaction :
  run (sweep_tick 6000) one_reaction = (one_reaction, [])
  ∧ run (sweep_tick 66000) one_reaction = (one_reaction, []).
Proof. split; reflexivity. Qed.

(** C1, on the code. At the sweep tick that follows the expiry of the
    only message of [one_expiring], the message is deleted and
    [deleteExpiredMessages] returns the count 1, neither the identifier
    nor the room of the deleted row; the tick emits nothing, so no
    [message_deleted] event reaches room 1. *)
Theorem sweep_deletes_without_announcing :
  let '(s', out) := run (sweep_tick 6000) one_expiring in
  expired 6000 (mkMessage 1 1 1 "hello" 4000 (Some 5000)) = true
  ∧ fst (deleteExpiredMessages 6000 (db one_expiring)) = Ret 1%nat
  ∧ messages (db s') = []
  ∧ out = []
  ∧ ∀ target e, In (target, e) out → event_name e ≠ "message_deleted".
Proof.
  vm_compute. repeat split. intros target e [].
Qed.

(** ** The theorems at concrete inputs *)

Lemma challenge_verifies_exactly_once_witness :
  let '(s0, r0) := post_auth_nonce (H := toy_crypto) 1000 "abc" "wallet-1" init in
  let '(s1, r1) := post_auth_verify (H := toy_crypto) 2000 "session-1" "wallet-1" "ok" None s0 in
  let '(s2, r2) := post_auth_verify (H := toy_crypto) 3000 "session-1" "wallet-1" "ok" None s1 in
  r0 = mkResponse 200 (BodyNonce (challenge_message "abc" "wallet-1") "abc")
  ∧ (∃ user, r1 = mkResponse 200 (BodyUser user)
             ∧ u_walletAddress user = "wallet-1"
             ∧ sessions s1 !! "session-1" = Some (u_id user))
  ∧ nonceStore s1 !! "wallet-1" = None
  ∧ r2 = mkResponse 400 (BodyError "No nonce found. Request a nonce first.")
  ∧ s2 = s1.
Proof.
  refine (challenge_verifies_exactly_once (H := toy_crypto)
            1000 "abc" "wallet-1" init 2000 "session-1" "ok" None
            3000 "session-1" "ok" None _ _ _ _ _ _);
    [discriminate | reflexivity | discriminate | discriminate | lia | reflexivity].
Defined.

Lemma invalid_signature_keeps_challenge_witness :
  let '(s1, r1) := post_auth_verify (H := toy_crypto) 2000 "session-1" "wallet-1" "no" None challenged in
  r1 = mkResponse 401 (BodyError "Invalid signature")
  ∧ s1 = challenged
  ∧ nonceStore s1 !! "wallet-1"
    = Some (mkChallenge "abc" (challenge_message "abc" "wallet-1") 1000)
  ∧ ("ok" ≠ "" → 3000 - 1000 ≤ 300000 →
     nacl_sign_detached_verify (Crypto := toy_crypto)
       (challenge_message "abc" "wallet-1") "ok" "wallet-1" = Ret true →
     ∃ user, snd (post_auth_verify (H := toy_crypto) 3000 "session-1" "wallet-1" "ok" None s1)
             = mkResponse 200 (BodyUser user)).
Proof.
  refine (invalid_signature_keeps_challenge (H := toy_crypto)
            2000 "session-1" "wallet-1" "no" None challenged
            (mkChallenge "abc" (challenge_message "abc" "wallet-1") 1000)
            3000 "ok" None _ _ _ _ _ _);
    [discriminate | discriminate | reflexivity | simpl; lia | reflexivity | reflexivity].
Defined.

Lemma expired_challenge_rejected_and_evicted_witness :
  let '(s1, r1) := post_auth_verify (H := toy_crypto) 301001 "session-1" "wallet-1" "ok" None challenged in
  r1 = mkResponse 400 (BodyError "Nonce expired. Request a new nonce.")
  ∧ nonceStore s1 = delete "wallet-1" (nonceStore challenged)
  ∧ nonceStore s1 !! "wallet-1" = None
  ∧ sessions s1 = sessions challenged ∧ db s1 = db challenged.
Proof.
  refine (expired_challenge_rejected_and_evicted (H := toy_crypto)
            301001 "session-1" "wallet-1" "ok" None challenged
            (mkChallenge "abc" (challenge_message "abc" "wallet-1") 1000) _ _ _ _);
    [discriminate | discriminate | reflexivity | simpl; lia].
Defined.

Lemma remove_reaction_broadcasts_iff_removed_witness :
  let '(removed, d') := removeReaction 1 1 "+1" (db one_reaction) in
  let '(s', out) := run (on_remove_reaction "socket-1" 1 "+1" 1) one_reaction in
  (removed = true
   ↔ ∃ re, In re (reactions (db one_reaction)) ∧ re_messageId re = 1
           ∧ re_userId re = 1 ∧ re_emoji re = "+1")
  ∧ db s' = d'
  ∧ rows_for (db s') 1 1 "+1" = []
  ∧ (removed = true → out = [(ToRoom (pretty 1), EvReactionRemoved 1 1 "+1")])
  ∧ (removed = false → out = [] ∧ s' = one_reaction).
Proof.
  refine (remove_reaction_broadcasts_iff_removed
            "socket-1" 1 "+1" 1 one_reaction 1 _ _);
    [reflexivity | discriminate].
Defined.

Lemma send_message_requires_membership_witness :
  ∃ user,
    getUser (db one_expiring) 1 = Some user
    ∧ messages (db (fst (run (on_send_message 7000 "socket-1" 1 "hi" None) one_expiring)))
      = messages (db one_expiring) ++ [mkMessage 2 1 1 "hi" 7000 None]
    ∧ snd (run (on_send_message 7000 "socket-1" 1 "hi" None) one_expiring)
      = [(ToRoom (pretty 1), EvNewMessage 2 1 1 (u_username user) "hi" 7000 None)].
Proof.
  refine (send_message_requires_membership
            7000 "socket-1" 1 "hi" None one_expiring 1 _ _ _);
    [reflexivity | discriminate | reflexivity].
Defined.

Lemma addReaction_idempotent_witness :
  let '(r1, d1) := addReaction 4500 1 1 "+1" (db one_expiring) in
  let '(r2, d2) := addReaction 4600 1 1 "+1" d1 in
  length (rows_for d2 1 1 "+1") = 1%nat
  ∧ d2 = d1
  ∧ (∃ row, r1 = Ret row ∧ r2 = Ret row ∧ rows_for d2 1 1 "+1" = [row])
  ∧ at_most_one_per_triple
      (addReactions [(4700, 1, 1, "+1"); (4800, 1, 1, "-1"); (4900, 9, 1, "+1")]
                    (db one_expiring)).
Proof.
  refine (addReaction_idempotent 4500 4600 1 1 "+1" (db one_expiring)
            [(4700, 1, 1, "+1"); (4800, 1, 1, "-1"); (4900, 9, 1, "+1")] _ _ _);
    [intros m u e; simpl; lia | reflexivity | reflexivity].
Defined.

Lemma room_joined_lists_last_50_witness :
  let history := getRoomMessages (db busy_room) 1 in
  (∃ members reactions user,
      snd (run (on_join_room 4100 "socket-1" 1) busy_room)
      = [(ToSocket "socket-1",
          EvRoomJoined (mkRoom 1 "Public Chat" true true None 20) members
                       (List.map message_view history) reactions);
         (ToRoomExceptSender (pretty 1) "socket-1",
          EvUserJoinedRoom 1 (u_username user))])
  ∧ (length history ≤ 50)%nat
  ∧ length history = Nat.min 50 (length (room_rows (db busy_room) 1))
  ∧ (∀ m, In m history → In m (messages (db busy_room)) ∧ m_roomId m = 1)
  ∧ StronglySorted oldest_first history
  ∧ ∃ older,
      older ++ history ≡ₚ room_rows (db busy_room) 1
      ∧ ∀ o m, In o older → In m history → m_createdAt o ≤ m_createdAt m.
Proof.
  refine (room_joined_lists_last_50 4100 "socket-1" 1 busy_room 1
            (mkRoom 1 "Public Chat" true true None 20) _ _ _ _);
    [reflexivity | discriminate | reflexivity | reflexivity].
Defined.

(** Of the 52 messages of [busy_room], the history lists the last 50,
    the messages 3 to 52, in that order. *)
Lemma busy_room_history :
  List.map m_id (getRoomMessages (db busy_room) 1) = seqZ 3 50.
Proof. vm_compute. reflexivity. Qed.

(** * Invariants of the reachable states *)

(** ** Hoare triples for handlers *)

Lemma hoare_pre {A} (P P' : State → Prop) (m : M A) Q E :
  (∀ s, P s → P' s) → hoare P' m Q E → hoare P m Q E.
Proof. intros HP Hm s Hs. apply Hm, HP, Hs. Qed.

Lemma hoare_ret {A} (a : A) (Q : A → State → Prop) E : hoare (Q a) (mret a) Q E.
Proof. intros s Hs. exact Hs. Qed.

Lemma hoare_bind {A B} P (m : M A) Q (f : A → M B) R E :
  hoare P m Q E → (∀ a, hoare (Q a) (f a) R E) → hoare P (m ≫= f) R E.
Proof.
  intros Hm Hf s Hs. specialize (Hm s Hs).
  unfold mbind, M_bind. destruct (m s) as [[[a|err] s1] out1]; [|done].
  specialize (Hf a s1 Hm). by destruct (f a s1) as [[[b|err] s2] out2].
Qed.

Lemma hoare_try_catch P body Q E' handler E :
  hoare P body Q E' → (∀ err, hoare E' (handler err) Q E) →
  hoare P (try_catch body handler) Q E.
Proof.
  intros Hbody Hh s Hs. specialize (Hbody s Hs). unfold try_catch.
  destruct (body s) as [[[a|err] s1] out1]; [done|].
  specialize (Hh err s1 Hbody). by destruct (handler err s1) as [[[b|err'] s2] out2].
Qed.

Lemma hoare_query {A} (g : Db → A) P E :
  hoare P (query g) (fun a s => a = g (db s) ∧ P s) E.
Proof. intros s Hs. by split. Qed.

Lemma hoare_get_state P E : hoare P get_state (fun a s => a = s ∧ P s) E.
Proof. intros s Hs. by split. Qed.

Lemma hoare_modify h (P : State → Prop) E :
  hoare (fun s => P (h s)) (modify h) (fun _ => P) E.
Proof. intros s Hs. exact Hs. Qed.

Lemma hoare_emit t e P E : hoare P (emit t e) (fun _ => P) E.
Proof. intros s Hs. exact Hs. Qed.

Lemma hoare_statement {A} (f : Db → Res A * Db) P Q E :
  (∀ s, P s → match f (db s) with
              | (Ret a, d') => Q a (set_db d' s)
              | (Throw _, d') => E (set_db d' s)
              end) →
  hoare P (statement f) Q E.
Proof.
  intros Hf s Hs. specialize (Hf s Hs). unfold statement.
  by destruct (f (db s)) as [[a|err] d'].
Qed.

Lemma hoare_deref {A} (v : option A) P :
  hoare P (deref v) (fun _ => P) P.
Proof. intros s Hs. by destruct v. Qed.

(** ** Invariants of the database *)

Lemma memberships_reference_mono d d' :
  roomMembers d' = roomMembers d →
  (∀ id, room_exists d id = true → room_exists d' id = true) →
  keeps_users d d' →
  memberships_reference d = true → memberships_reference d' = true.
Proof.
  unfold memberships_reference, member_row_ok. intros -> Hrooms Husers Href.
  rewrite forallb_forall in *. intros rm Hrm.
  specialize (Href rm Hrm). apply andb_true_iff in Href as [Hr Hu].
  apply andb_true_iff. split; [by apply Hrooms | by apply Husers].
Qed.

Lemma keeps_users_refl d : keeps_users d d.
Proof. by intros id. Qed.

Lemma DbInv_same_tables d d' :
  users d' = users d → users_seq d' = users_seq d → rooms d' = rooms d →
  roomMembers d' = roomMembers d → reactions d' = reactions d →
  DbInv d → DbInv d' ∧ keeps_users d d'.
Proof.
  intros Hu Hseq Hr Hrm Hre [Hmem Hreact Hids Hpos]. split.
  - split.
    + apply (memberships_reference_mono d d' Hrm); [| |done].
      * unfold room_exists. by rewrite Hr.
      * unfold keeps_users, user_exists. by rewrite Hu.
    + unfold at_most_one_per_triple, rows_for in *. by rewrite Hre.
    + by rewrite Hu.
    + by rewrite Hseq.
  - unfold keeps_users, user_exists. by rewrite Hu.
Qed.

Lemma createUser_ok now w username : statement_ok (createUser now w username).
Proof.
  intros d Hinv. unfold createUser.
  destruct (existsb _ (users d)); simpl; [by split; [|apply keeps_users_refl]|].
  destruct Hinv as [Hmem Hreact Hids Hpos].
  assert (Hkeep : keeps_users d
            (mkDb (users d ++ [mkUser (users_seq d) username w now]) (users_seq d + 1)
                  (rooms d) (rooms_seq d) (roomMembers d) (roomMembers_seq d)
                  (messages d) (messages_seq d) (reactions d) (reactions_seq d))).
  { intros id Hid. unfold user_exists in *. simpl. rewrite existsb_app, Hid. done. }
  split; [|done]. split; simpl.
  - by apply (memberships_reference_mono d).
  - done.
  - intros u Hu. apply in_app_iff in Hu as [Hu | [<- | []]]; [by apply Hids | done].
  - lia.
Qed.

Lemma insertRoom_ok now name isGroup isPublic createdBy :
  statement_ok (insertRoom now name isGroup isPublic createdBy).
Proof.
  intros d Hinv. unfold insertRoom.
  destruct (match createdBy with Some uid => user_exists d uid | None => true end);
    simpl; [|by split; [|apply keeps_users_refl]].
  destruct Hinv as [Hmem Hreact Hids Hpos].
  split; [|by intros id]. split; simpl; try done.
  apply (memberships_reference_mono d); [done | | by intros id | done].
  intros id Hid. unfold room_exists in *. simpl. rewrite existsb_app, Hid. done.
Qed.

Lemma createRoom_ok now name isGroup createdBy :
  statement_ok (createRoom now name isGroup createdBy).
Proof. apply insertRoom_ok. Qed.

Lemma ensurePublicRoom_ok now : statement_ok (ensurePublicRoom now).
Proof.
  intros d Hinv. unfold ensurePublicRoom.
  destruct (first_row _); [by split; [|apply keeps_users_refl]|].
  by apply insertRoom_ok.
Qed.

Lemma addRoomMember_ok now roomId userId :
  statement_ok (addRoomMember now roomId userId).
Proof.
  intros d Hinv. unfold addRoomMember.
  destruct (room_exists d roomId && user_exists d userId) eqn:Href; simpl;
    [|by split; [|apply keeps_users_refl]].
  destruct Hinv as [Hmem Hreact Hids Hpos].
  split; [|by intros id]. split; simpl; try done.
  unfold memberships_reference in *. simpl.
  rewrite forallb_app. simpl. rewrite andb_true_r.
  apply andb_true_iff. split; [exact Hmem | exact Href].
Qed.

Lemma createMessage_ok now roomId userId content expiresAt :
  statement_ok (createMessage now roomId userId content expiresAt).
Proof.
  intros d Hinv. unfold createMessage.
  destruct (room_exists d roomId && user_exists d userId); simpl;
    [|by split; [|apply keeps_users_refl]].
  by apply DbInv_same_tables.
Qed.

Lemma deleteExpiredMessages_ok now : statement_ok (deleteExpiredMessages now).
Proof.
  intros d Hinv. unfold deleteExpiredMessages.
  destruct (existsb _ _); simpl; [by split; [|apply keeps_users_refl]|].
  by apply DbInv_same_tables.
Qed.

Lemma addReaction_ok now messageId userId emoji :
  statement_ok (addReaction now messageId userId emoji).
Proof.
  intros d Hinv.
  pose proof (addReaction_preserves now messageId userId emoji d
                (inv_reactions d Hinv)) as Hreact.
  unfold addReaction in *.
  destruct (first_row _); simpl in *; [by split; [|apply keeps_users_refl]|].
  destruct (message_exists d messageId && user_exists d userId); simpl in *;
    [|by split; [|apply keeps_users_refl]].
  destruct Hinv as [Hmem _ Hids Hpos]. split; [|by intros id].
  by split.
Qed.

Lemma filter_filter_length {A} (f g : A → bool) (l : list A) :
  (length (List.filter f (List.filter g l)) ≤ length (List.filter f l))%nat.
Proof.
  induction l as [|x l IH]; simpl; [done|].
  destruct (g x), (f x) eqn:Hf; simpl; rewrite ?Hf; simpl; lia.
Qed.

Lemma removeReaction_ok messageId userId emoji :
  statement_ok (fun d =>
    let '(removed, d') := removeReaction messageId userId emoji d in
    (Ret removed, d')).
Proof.
  intros d [Hmem Hreact Hids Hpos]. unfold removeReaction. simpl.
  split; [|by intros id]. split; try done.
  intros m u e. unfold rows_for. simpl.
  etrans; [apply filter_filter_length | apply Hreact].
Qed.

(** ** Invariants of the process state *)

Lemma Inv_init : Inv init.
Proof.
  split; [split|..]; simpl; try done.
  intros m u e. simpl. lia.
Qed.

Lemma Inv_set_db s d' :
  Inv s → DbInv d' → keeps_users (db s) d' → Inv (set_db d' s).
Proof.
  intros [Hdb Hbound Hsess] Hd' Hkeep. split; simpl; [done | |].
  - intros socketId userId Hs. eapply Hkeep, Hbound, Hs.
  - intros sessionId userId Hs. eapply Hkeep, Hsess, Hs.
Qed.

Lemma Inv_set_socketRooms f s : Inv s → Inv (set_socketRooms f s).
Proof. by intros [Hdb Hbound Hsess]. Qed.

Lemma Inv_set_nonceStore f s : Inv s → Inv (set_nonceStore f s).
Proof. by intros [Hdb Hbound Hsess]. Qed.

Lemma Inv_bind_socket socketId userId s :
  Inv s → user_exists (db s) userId = true →
  Inv (set_socketToUser (insert socketId userId) s).
Proof.
  intros [Hdb Hbound Hsess] Hex. split; simpl; [done | | done].
  intros socketId' userId' Hs. destruct (decide (socketId = socketId')) as [<-|Hne].
  - rewrite lookup_insert_eq in Hs. by simplify_eq.
  - rewrite lookup_insert_ne in Hs by done. eapply Hbound, Hs.
Qed.

Lemma Inv_unbind_socket socketId s :
  Inv s → Inv (set_socketToUser (delete socketId) s).
Proof.
  intros [Hdb Hbound Hsess]. split; simpl; [done | | done].
  intros socketId' userId' Hs. apply lookup_delete_Some in Hs as [_ Hs].
  eapply Hbound, Hs.
Qed.

Lemma Inv_set_session sessionId userId s :
  Inv s → user_exists (db s) userId = true →
  Inv (set_sessions (insert sessionId userId) s).
Proof.
  intros [Hdb Hbound Hsess] Hex. split; simpl; [done | done |].
  intros sessionId' userId' Hs. destruct (decide (sessionId = sessionId')) as [<-|Hne].
  - rewrite lookup_insert_eq in Hs. by simplify_eq.
  - rewrite lookup_insert_ne in Hs by done. eapply Hsess, Hs.
Qed.

Lemma preserves_bind {A B} (m : M A) (f : A → M B) :
  preserves m → (∀ a, preserves (f a)) → preserves (m ≫= f).
Proof. intros Hm Hf. by eapply hoare_bind. Qed.

Lemma preserves_try_catch body handler :
  preserves body → (∀ err, preserves (handler err)) →
  preserves (try_catch body handler).
Proof. intros Hb Hh. by eapply hoare_try_catch. Qed.

Lemma preserves_ret {A} (a : A) : preserves (mret a : M A).
Proof. by intros s Hs. Qed.

Lemma preserves_skip : preserves skip.
Proof. apply preserves_ret. Qed.

Lemma preserves_console : preserves console.
Proof. apply preserves_ret. Qed.

Lemma preserves_emit t e : preserves (emit t e).
Proof. apply hoare_emit. Qed.

Lemma preserves_not_authenticated socketId : preserves (not_authenticated socketId).
Proof. apply hoare_emit. Qed.

Lemma preserves_get_state : preserves get_state.
Proof. by intros s Hs. Qed.

Lemma preserves_query {A} (g : Db → A) : preserves (query g).
Proof. by intros s Hs. Qed.

Lemma preserves_deref {A} (v : option A) : preserves (deref v).
Proof. apply hoare_deref. Qed.

Lemma preserves_modify h : (∀ s, Inv s → Inv (h s)) → preserves (modify h).
Proof. intros Hh s Hs. by apply Hh. Qed.

Lemma preserves_socket_join socketId room : preserves (socket_join socketId room).
Proof. apply preserves_modify. intros s. apply Inv_set_socketRooms. Qed.

Lemma preserves_statement {A} (f : Db → Res A * Db) :
  statement_ok f → preserves (statement f).
Proof.
  intros Hf. apply hoare_statement. intros s Hs.
  destruct (Hf (db s) (inv_db s Hs)) as [Hd' Hkeep].
  destruct (f (db s)) as [[a|err] d']; by apply Inv_set_db.
Qed.

Create HintDb preserve.

#[local] Hint Resolve preserves_skip preserves_console preserves_emit
  preserves_not_authenticated preserves_get_state preserves_query
  preserves_deref preserves_socket_join preserves_ret : preserve.
#[local] Hint Resolve createUser_ok createRoom_ok ensurePublicRoom_ok
  addRoomMember_ok createMessage_ok deleteExpiredMessages_ok addReaction_ok
  removeReaction_ok : preserve.

(** Walks down a handler: binds and [try] blocks by their rules, a
    [match] or [if] by cases, the primitive steps by the hints. *)
Ltac preserve :=
  lazymatch goal with
  | |- preserves (mbind _ _) =>
      apply preserves_bind; [preserve | intros ?; preserve]
  | |- preserves (try_catch _ _) =>
      apply preserves_try_catch; [preserve | intros ?; preserve]
  | |- preserves (statement _) =>
      apply preserves_statement; auto with preserve
  | |- preserves (match ?x with _ => _ end) => destruct x; preserve
  | |- _ => auto with preserve
  end.

Lemma on_create_private_chat_preserves now socketId w :
  preserves (on_create_private_chat now socketId w).
Proof. unfold on_create_private_chat. preserve. Qed.

Lemma on_create_room_preserves now socketId name isGroup :
  preserves (on_create_room now socketId name isGroup).
Proof. unfold on_create_room. preserve. Qed.

Lemma on_room_op_preserves now socketId op :
  preserves (on_room_op now socketId op).
Proof.
  destruct op; simpl;
    unfold on_join_room, on_send_message, on_add_reaction, on_remove_reaction,
      on_typing, on_stop_typing; preserve.
Qed.

Lemma on_disconnect_preserves socketId : preserves (on_disconnect socketId).
Proof.
  unfold on_disconnect. preserve.
  apply preserves_modify. intros s. apply Inv_unbind_socket.
Qed.

Lemma sweep_tick_preserves now : preserves (sweep_tick now).
Proof. unfold sweep_tick. preserve. Qed.

Lemma Inv_join_rooms socketId (userRooms : list Room) s :
  Inv s →
  Inv (foldl (fun acc room =>
                set_socketRooms
                  (fun rs => {[ (socketId, pretty (r_id room)) ]} ∪ rs) acc)
             s userRooms).
Proof.
  revert s. induction userRooms as [|room userRooms IH]; intros s Hs; simpl; [done|].
  by apply IH, Inv_set_socketRooms.
Qed.

Lemma on_auth_preserves now socketId sessionId :
  preserves (on_auth now socketId sessionId).
Proof.
  unfold on_auth. apply preserves_try_catch; [|intros; preserve].
  apply preserves_bind; [preserve|]. intros s0.
  destruct (truthy_id (sessions s0 !! sessionId)) as [userId|]; [|preserve].
  eapply hoare_bind; [apply hoare_query|].
  intros [user|]; [|eapply hoare_pre; [|apply preserves_emit]; by intros s [_ Hs]].
  eapply hoare_bind with (Q := fun _ => Inv).
  - eapply hoare_pre; [|apply hoare_modify]. intros s [Huser Hs]. simpl.
    symmetry in Huser. apply user_exists_of_getUser in Huser as [Hex ->].
    by apply Inv_bind_socket.
  - intros _.
    match goal with |- hoare Inv ?m _ _ => change (preserves m) end.
    preserve. apply preserves_modify. intros s. apply Inv_join_rooms.
Qed.

Lemma preserves_run (m : M unit) s : preserves m → Inv s → Inv (fst (run m s)).
Proof.
  intros Hm Hs. specialize (Hm s Hs). unfold run.
  by destruct (m s) as [[[[]|err] s'] out].
Qed.

Section Reachable.
Context `{Crypto}.

Lemma post_auth_nonce_Inv now rnd w s :
  Inv s → Inv (fst (post_auth_nonce now rnd w s)).
Proof.
  intros Hs. unfold post_auth_nonce.
  destruct (falsy_string w); [done|].
  destruct (PublicKey_ok w); [|done]. by apply Inv_set_nonceStore.
Qed.

Lemma post_auth_verify_Inv now sessionId w signature username s :
  Inv s → Inv (fst (post_auth_verify now sessionId w signature username s)).
Proof.
  intros Hs. unfold post_auth_verify.
  destruct (falsy_string w || falsy_string signature); [done|].
  destruct (nonceStore s !! w) as [stored|]; [|done].
  destruct (now - timestamp stored >? nonce_ttl); [by apply Inv_set_nonceStore|].
  destruct (negb (PublicKey_ok w)); [done|].
  destruct (nacl_sign_detached_verify _ _ _) as [[|]|err]; [|done..].
  pose proof (Inv_set_nonceStore (delete w) s Hs) as Hs1.
  set (s1 := set_nonceStore (delete w) s) in *.
  destruct (getUserByWallet (db s1) w) as [user|] eqn:Huser.
  - simpl. apply Inv_set_session; [done|]. by eapply getUserByWallet_exists.
  - destruct (createUser_ok now w (Some (displayName username w)) (db s1)
                (inv_db s1 Hs1)) as [Hd' Hkeep].
    destruct (createUser now w _ (db s1)) as [[user|err] d'] eqn:Hcreate; simpl.
    + apply Inv_set_session; [by apply Inv_set_db|]. simpl.
      unfold createUser in Hcreate.
      destruct (existsb _ (users (db s1))); [done|]. simplify_eq. simpl.
      unfold user_exists. simpl. rewrite existsb_app. simpl.
      by rewrite Z.eqb_refl, orb_true_r.
    + by apply Inv_set_db.
Qed.

(** Every state the server can be in satisfies the invariants. *)
Lemma reachable_Inv s : reachable s → Inv s.
Proof.
  induction 1 as [|s req _ IH]; [apply Inv_init|].
  destruct req; simpl.
  - by apply post_auth_nonce_Inv.
  - by apply post_auth_verify_Inv.
  - apply preserves_run; [apply on_auth_preserves | done].
  - apply preserves_run; [apply on_create_private_chat_preserves | done].
  - apply preserves_run; [apply on_create_room_preserves | done].
  - apply preserves_run; [apply on_room_op_preserves | done].
  - apply preserves_run; [apply on_disconnect_preserves | done].
  - apply preserves_run; [apply sweep_tick_preserves | done].
Qed.

(** In a reachable state the side conditions of the theorems on the
    handlers hold: the membership rows reference existing rooms and
    users, there is at most one reaction row per triple, and a bound
    connection is bound to an existing user, whose identifier is not
    zero. *)
Lemma reachable_side_conditions s :
  reachable s →
  memberships_reference (db s) = true
  ∧ at_most_one_per_triple (db s)
  ∧ ∀ socketId userId,
      socketToUser s !! socketId = Some userId →
      userId ≠ 0 ∧ user_exists (db s) userId = true
      ∧ ∃ user, getUser (db s) userId = Some user.
Proof.
  intros Hs. apply reachable_Inv in Hs as [[Hmem Hreact Hids _] Hbound _].
  split; [done|]. split; [done|]. intros socketId userId Hsock.
  pose proof (Hbound _ _ Hsock) as Hex.
  destruct (getUser_of_exists _ _ Hex) as (user & Hget & Hid & Hin).
  split; [|split; [done | by exists user]].
  specialize (Hids user Hin). lia.
Qed.

End Reachable.

(** * Further properties of the storage layer and of the server *)

(** ** Integrity is kept by every statement *)

Lemma ids_snoc {A} (f : A → Z) (l : list A) (x : A) (n : Z) :
  (∀ y, In y l → f y < n) → f x = n → ∀ y, In y (l ++ [x]) → f y < n + 1.
Proof.
  intros Hl Hx y Hy. apply in_app_iff in Hy as [Hy | [<- | []]].
  - specialize (Hl y Hy). lia.
  - lia.
Qed.

Lemma keys_snoc {A} (f : A → Z) (l : list A) (x : A) (n : Z) :
  (∀ y, In y l → f y < n) → f x = n →
  NoDup (List.map f l) → NoDup (List.map f (l ++ [x])).
Proof.
  intros Hl Hx. induction l as [|a l IH]; simpl; intros Hnd.
  - apply NoDup_cons_2; [apply not_elem_of_nil | apply NoDup_nil_2].
  - apply NoDup_cons in Hnd as [Ha Hnd].
    apply NoDup_cons. split.
    + rewrite list_elem_of_In, map_app, in_app_iff. intros [Hin | [Hin | []]].
      * by apply Ha, list_elem_of_In.
      * pose proof (Hl a (or_introl eq_refl)). lia.
    + apply IH; [|done]. intros y Hy. apply Hl. by right.
Qed.

Lemma keys_filter {A B} (f : A → B) (g : A → bool) (l : list A) :
  NoDup (List.map f l) → NoDup (List.map f (List.filter g l)).
Proof.
  induction l as [|a l IH]; simpl; intros Hnd; [done|].
  apply NoDup_cons in Hnd as [Ha Hnd]. destruct (g a); simpl; [|by apply IH].
  apply NoDup_cons. split; [|by apply IH].
  rewrite list_elem_of_In, in_map_iff. intros (y & Hy & Hin).
  apply filter_In in Hin as [Hin _].
  apply Ha, list_elem_of_In, in_map_iff. by exists y.
Qed.

Lemma exists_snoc {A} (f : A → bool) (l : list A) (x : A) :
  existsb f l = true → existsb f (l ++ [x]) = true.
Proof. intros Hl. by rewrite existsb_app, Hl. Qed.

Lemma createUser_integrity now w username d :
  Integrity d → Integrity (snd (createUser now w username d)).
Proof.
  intros Hint. unfold createUser.
  destruct (existsb _ (users d)) eqn:Hdup; simpl; [done|].
  destruct Hint. split; simpl; try done.
  - lia.
  - intros u Hu. apply in_app_iff in Hu as [Hu | [<- | []]]; simpl.
    + specialize (int_user_ids0 u Hu). lia.
    + lia.
  - apply (keys_snoc u_id _ _ (users_seq d)); [|done..].
    intros u Hu. by apply int_user_ids0.
  - clear -Hdup int_wallets0. induction (users d) as [|a l IH]; simpl in *.
    + apply NoDup_cons_2; [apply not_elem_of_nil | apply NoDup_nil_2].
    + apply orb_false_iff in Hdup as [Ha Hdup].
      apply NoDup_cons in int_wallets0 as [Hnotin Hnd].
      apply NoDup_cons. split; [|by apply IH].
      rewrite list_elem_of_In, map_app, in_app_iff. intros [Hin | [Hin | []]].
      * by apply Hnotin, list_elem_of_In.
      * simpl in Hin. apply String.eqb_neq in Ha. congruence.
  - intros r uid Hr Hc. apply exists_snoc. by eapply int_creators0.
  - intros rm Hrm. destruct (int_members0 rm Hrm). split; [done|by apply exists_snoc].
  - intros m Hm. destruct (int_messages0 m Hm). split; [done|by apply exists_snoc].
  - intros re Hre. destruct (int_reactions0 re Hre). split; [done|by apply exists_snoc].
Qed.

Lemma insertRoom_integrity now name isGroup isPublic createdBy d :
  Integrity d →
  (isPublic = true → List.filter r_isPublic (rooms d) = []) →
  Integrity (snd (insertRoom now name isGroup isPublic createdBy d)).
Proof.
  intros Hint Hpub. unfold insertRoom.
  destruct (match createdBy with Some uid => user_exists d uid | None => true end)
    eqn:Hfk; simpl; [|done].
  destruct Hint. split; simpl; try done.
  - by apply (ids_snoc r_id _ _ (rooms_seq d)).
  - by apply (keys_snoc r_id _ _ (rooms_seq d)).
  - rewrite List.filter_app, length_app. simpl.
    destruct isPublic; simpl; [rewrite Hpub by done; simpl|]; lia.
  - intros r uid Hr Hc. apply in_app_iff in Hr as [Hr | [<- | []]].
    + by eapply int_creators0.
    + simpl in Hc. by subst createdBy.
  - intros rm Hrm. destruct (int_members0 rm Hrm). split; [by apply exists_snoc|done].
  - intros m Hm. destruct (int_messages0 m Hm). split; [by apply exists_snoc|done].
Qed.

Lemma createRoom_integrity now name isGroup createdBy d :
  Integrity d → Integrity (snd (createRoom now name isGroup createdBy d)).
Proof. intros Hint. by apply insertRoom_integrity. Qed.

Lemma ensurePublicRoom_integrity now d :
  Integrity d → Integrity (snd (ensurePublicRoom now d)).
Proof.
  intros Hint. unfold ensurePublicRoom.
  destruct (first_row (List.filter r_isPublic (rooms d))) eqn:Hrow; [done|].
  apply insertRoom_integrity; [done|]. intros _. by destruct (List.filter _ _).
Qed.

Lemma addRoomMember_integrity now roomId userId d :
  Integrity d → Integrity (snd (addRoomMember now roomId userId d)).
Proof.
  intros Hint. unfold addRoomMember.
  destruct (room_exists d roomId && user_exists d userId) eqn:Hfk; simpl; [|done].
  apply andb_true_iff in Hfk as [Hroom Huser].
  destruct Hint. split; simpl; try done.
  - by apply (ids_snoc rm_id _ _ (roomMembers_seq d)).
  - by apply (keys_snoc rm_id _ _ (roomMembers_seq d)).
  - intros rm Hrm. apply in_app_iff in Hrm as [Hrm | [<- | []]]; [by apply int_members0|].
    done.
Qed.

Lemma createMessage_integrity now roomId userId content expiresAt d :
  Integrity d →
  Integrity (snd (createMessage now roomId userId content expiresAt d)).
Proof.
  intros Hint. unfold createMessage.
  destruct (room_exists d roomId && user_exists d userId) eqn:Hfk; simpl; [|done].
  apply andb_true_iff in Hfk as [Hroom Huser].
  destruct Hint. split; simpl; try done.
  - by apply (ids_snoc m_id _ _ (messages_seq d)).
  - by apply (keys_snoc m_id _ _ (messages_seq d)).
  - intros m Hm. apply in_app_iff in Hm as [Hm | [<- | []]]; [by apply int_messages0|].
    done.
  - intros re Hre. destruct (int_reactions0 re Hre).
    split; [|done]. by apply exists_snoc.
Qed.

Lemma deleteExpiredMessages_integrity now d :
  Integrity d → Integrity (snd (deleteExpiredMessages now d)).
Proof.
  intros Hint. unfold deleteExpiredMessages.
  destruct (existsb _ _) eqn:Href; simpl; [done|].
  destruct Hint. split; simpl; try done.
  - intros m Hm. apply filter_In in Hm as [Hm _]. by apply int_message_ids0.
  - by apply keys_filter.
  - intros m Hm. apply filter_In in Hm as [Hm _]. by apply int_messages0.
  - intros re Hre. destruct (int_reactions0 re Hre) as [Hmsg Husr]. split; [|done].
    unfold message_exists in *. simpl.
    apply existsb_exists in Hmsg as (m & Hm & Hid).
    apply existsb_exists. exists m. split; [|done].
    apply filter_In. split; [done|]. apply negb_true_iff.
    destruct (expired now m) eqn:Hexp; [|done].
    assert (existsb (referenced_by_reaction d)
                    (List.filter (expired now) (messages d)) = true) as Hyes.
    { apply existsb_exists. exists m. split; [by apply filter_In|].
      apply existsb_exists. exists re. split; [done|].
      apply Z.eqb_eq in Hid. apply Z.eqb_eq. done. }
    congruence.
Qed.

Lemma addReaction_integrity now messageId userId emoji d :
  Integrity d → Integrity (snd (addReaction now messageId userId emoji d)).
Proof.
  intros Hint. unfold addReaction.
  destruct (first_row _); simpl; [done|].
  destruct (message_exists d messageId && user_exists d userId) eqn:Hfk;
    simpl; [|done].
  apply andb_true_iff in Hfk as [Hmsg Husr].
  destruct Hint. split; simpl; try done.
  - by apply (ids_snoc re_id _ _ (reactions_seq d)).
  - by apply (keys_snoc re_id _ _ (reactions_seq d)).
  - intros re Hre. apply in_app_iff in Hre as [Hre | [<- | []]]; [by apply int_reactions0|].
    done.
Qed.

Lemma removeReaction_integrity messageId userId emoji d :
  Integrity d → Integrity (snd (removeReaction messageId userId emoji d)).
Proof.
  intros Hint. unfold removeReaction. simpl.
  destruct Hint. split; simpl; try done.
  - intros re Hre. apply filter_In in Hre as [Hre _]. by apply int_reaction_ids0.
  - by apply keys_filter.
  - intros re Hre. apply filter_In in Hre as [Hre _]. by apply int_reactions0.
Qed.

(** ** Integrity is kept by every request *)

Lemma db_keeps_bind P {A B} (m : M A) (f : A → M B) :
  db_keeps P m → (∀ a, db_keeps P (f a)) → db_keeps P (m ≫= f).
Proof. intros Hm Hf. by eapply hoare_bind. Qed.

Lemma db_keeps_try_catch P body handler :
  db_keeps P body → (∀ err, db_keeps P (handler err)) →
  db_keeps P (try_catch body handler).
Proof. intros Hb Hh. by eapply hoare_try_catch. Qed.

Lemma db_keeps_ret P {A} (a : A) : db_keeps P (mret a : M A).
Proof. by intros s Hs. Qed.

Lemma db_keeps_skip P : db_keeps P skip.
Proof. apply db_keeps_ret. Qed.

Lemma db_keeps_console P : db_keeps P console.
Proof. apply db_keeps_ret. Qed.

Lemma db_keeps_emit P t e : db_keeps P (emit t e).
Proof. by intros s Hs. Qed.

Lemma db_keeps_not_authenticated P socketId :
  db_keeps P (not_authenticated socketId).
Proof. by intros s Hs. Qed.

Lemma db_keeps_get_state P : db_keeps P get_state.
Proof. by intros s Hs. Qed.

Lemma db_keeps_query P {A} (g : Db → A) : db_keeps P (query g).
Proof. by intros s Hs. Qed.

Lemma db_keeps_deref P {A} (v : option A) : db_keeps P (deref v).
Proof. intros s Hs. by destruct v. Qed.

Lemma db_keeps_modify P h : (∀ s, db (h s) = db s) → db_keeps P (modify h).
Proof. intros Hh s Hs. simpl. by rewrite Hh. Qed.

Lemma db_keeps_socket_join P socketId room : db_keeps P (socket_join socketId room).
Proof. by apply db_keeps_modify. Qed.

Lemma db_keeps_statement P {A} (f : Db → Res A * Db) :
  (∀ d, P d → P (snd (f d))) → db_keeps P (statement f).
Proof.
  intros Hf. apply hoare_statement. intros s Hs. specialize (Hf (db s) Hs).
  by destruct (f (db s)) as [[a|err] d'].
Qed.

Lemma db_join_rooms socketId (userRooms : list Room) s :
  db (foldl (fun acc room =>
               set_socketRooms
                 (fun rs => {[ (socketId, pretty (r_id room)) ]} ∪ rs) acc)
            s userRooms) = db s.
Proof.
  revert s. induction userRooms as [|room userRooms IH]; intros s; simpl; [done|].
  by rewrite IH.
Qed.

Create HintDb db_keep.

#[local] Hint Resolve db_keeps_skip db_keeps_console db_keeps_emit
  db_keeps_not_authenticated db_keeps_get_state db_keeps_query db_keeps_deref
  db_keeps_socket_join db_keeps_ret : db_keep.
#[local] Hint Resolve createUser_integrity createRoom_integrity
  ensurePublicRoom_integrity addRoomMember_integrity createMessage_integrity
  deleteExpiredMessages_integrity addReaction_integrity : db_keep.

(** The walk of [preserve], for a property of the database alone. *)
Ltac db_keep :=
  lazymatch goal with
  | |- db_keeps _ (mbind _ _) =>
      apply db_keeps_bind; [db_keep | intros ?; db_keep]
  | |- db_keeps _ (try_catch _ _) =>
      apply db_keeps_try_catch; [db_keep | intros ?; db_keep]
  | |- db_keeps _ (statement _) =>
      apply db_keeps_statement; auto with db_keep
  | |- db_keeps _ (modify _) =>
      apply db_keeps_modify; first [done | intros ?; apply db_join_rooms]
  | |- db_keeps _ (match ?x with _ => _ end) => destruct x; db_keep
  | |- _ => auto with db_keep
  end.

Lemma handlers_keep_integrity :
  (∀ now socketId sessionId, db_keeps Integrity (on_auth now socketId sessionId))
  ∧ (∀ now socketId w, db_keeps Integrity (on_create_private_chat now socketId w))
  ∧ (∀ now socketId name isGroup,
       db_keeps Integrity (on_create_room now socketId name isGroup))
  ∧ (∀ now socketId op, db_keeps Integrity (on_room_op now socketId op))
  ∧ (∀ socketId, db_keeps Integrity (on_disconnect socketId))
  ∧ (∀ now, db_keeps Integrity (sweep_tick now)).
Proof.
  repeat split; intros.
  - unfold on_auth. db_keep.
  - unfold on_create_private_chat. db_keep.
  - unfold on_create_room. db_keep.
  - destruct op; simpl;
      unfold on_join_room, on_send_message, on_add_reaction, on_remove_reaction,
        on_typing, on_stop_typing; db_keep.
    intros d Hd.
    match goal with
    | |- context [removeReaction ?m ?u ?e d] =>
        pose proof (removeReaction_integrity m u e d Hd);
        by destruct (removeReaction m u e d)
    end.
  - unfold on_disconnect. db_keep.
  - unfold sweep_tick. db_keep.
Qed.

Lemma db_keeps_run P (m : M unit) s : db_keeps P m → P (db s) → P (db (fst (run m s))).
Proof.
  intros Hm Hs. specialize (Hm s Hs). unfold run.
  by destruct (m s) as [[[[]|err] s'] out].
Qed.

Lemma Integrity_empty : Integrity empty_db.
Proof.
  split; simpl; try done; try lia; try apply NoDup_nil_2.
Qed.

Section ReachableIntegrity.
Context `{Crypto}.

Lemma post_auth_verify_integrity now sessionId w signature username s :
  Integrity (db s) →
  Integrity (db (fst (post_auth_verify now sessionId w signature username s))).
Proof.
  intros Hs. unfold post_auth_verify.
  destruct (falsy_string w || falsy_string signature); [done|].
  destruct (nonceStore s !! w) as [stored|]; [|done].
  destruct (now - timestamp stored >? nonce_ttl); [done|].
  destruct (negb (PublicKey_ok w)); [done|].
  destruct (nacl_sign_detached_verify _ _ _) as [[|]|err]; [|done..].
  simpl. destruct (getUserByWallet (db s) w) as [user|]; [done|].
  pose proof (createUser_integrity now w (Some (displayName username w)) (db s) Hs).
  by destruct (createUser now w _ (db s)) as [[user|err] d'].
Qed.

(** The tables of every state the server can be in have [Integrity]. *)
Lemma reachable_Integrity s : reachable s → Integrity (db s).
Proof.
  destruct handlers_keep_integrity as (Hauth & Hchat & Hroom & Hop & Hdis & Htick).
  induction 1 as [|s req _ IH]; [apply Integrity_empty|].
  destruct req; simpl.
  - unfold post_auth_nonce. destruct (falsy_string _); [done|].
    by destruct (PublicKey_ok _).
  - by apply post_auth_verify_integrity.
  - by apply db_keeps_run.
  - by apply db_keeps_run.
  - by apply db_keeps_run.
  - by apply db_keeps_run.
  - by apply db_keeps_run.
  - by apply db_keeps_run.
Qed.

End ReachableIntegrity.

(** ** What integrity gives to the queries *)

Lemma serve_all_reachable `{Crypto} reqs s :
  reachable s → reachable (serve_all reqs s).
Proof.
  revert s. induction reqs as [|req reqs IH]; intros s Hs; simpl; [done|].
  apply IH. by constructor.
Qed.

Lemma demo_reachable : reachable (H := toy_crypto) demo.
Proof. apply serve_all_reachable. constructor. Qed.

Lemma first_row_unique_key {A B} (key : A → B) (eqb : B → B → bool)
    (l : list A) (x : A) :
  (∀ a b, eqb a b = true ↔ a = b) →
  NoDup (List.map key l) → In x l →
  first_row (List.filter (fun y => eqb (key y) (key x)) l) = Some x.
Proof.
  intros Heqb. induction l as [|a l IH]; simpl; intros Hnd Hin; [done|].
  apply NoDup_cons in Hnd as [Ha Hnd]. destruct Hin as [-> | Hin].
  - by rewrite (proj2 (Heqb _ _) eq_refl).
  - destruct (eqb (key a) (key x)) eqn:Hk; [|by apply IH].
    apply Heqb in Hk. exfalso. apply Ha. rewrite Hk.
    apply list_elem_of_In, in_map_iff. by exists x.
Qed.

Section ReachableQueries.
Context `{Crypto}.

(** X1. One user per wallet: in every reachable state, looking a stored
    user up by its wallet address returns that very user. *)
Theorem reachable_wallet_identifies_user s user :
  reachable s → In user (users (db s)) →
  getUserByWallet (db s) (u_walletAddress user) = Some user.
Proof.
  intros Hs Hin. apply reachable_Integrity in Hs.
  unfold getUserByWallet.
  apply (first_row_unique_key u_walletAddress String.eqb);
    [apply String.eqb_eq | apply (int_wallets _ Hs) | done].
Qed.

(** X2. Identifiers are keys: in every reachable state [getUser] and
    [getRoom] on the identifier of a stored row return that row, the
    identifier of a user is positive, and no identifier of a table
    has reached the sequence of the table. *)
Theorem reachable_lookup_by_id s :
  reachable s →
  (∀ user, In user (users (db s)) →
           getUser (db s) (u_id user) = Some user
           ∧ 0 < u_id user < users_seq (db s))
  ∧ (∀ room, In room (rooms (db s)) →
             getRoom (db s) (r_id room) = Some room
             ∧ r_id room < rooms_seq (db s))
  ∧ (∀ m, In m (messages (db s)) → m_id m < messages_seq (db s))
  ∧ NoDup (List.map m_id (messages (db s)))
  ∧ NoDup (List.map re_id (reactions (db s))).
Proof.
  intros Hs. apply reachable_Integrity in Hs. destruct Hs.
  split; [|split; [|split; [|split]]]; try done.
  - intros user Hin. split; [|by apply int_user_ids0].
    unfold getUser. apply (first_row_unique_key u_id Z.eqb); [apply Z.eqb_eq|done..].
  - intros room Hin. split; [|by apply int_room_ids0].
    unfold getRoom. apply (first_row_unique_key r_id Z.eqb); [apply Z.eqb_eq|done..].
Qed.


(** X4. No dangling reference: in every reachable state a reaction
    points at a message that is still stored and at a user, a message
    at its room and its author, a membership row at its room and its
    user, and the creator of a room is a user. In particular the
    sweep never deletes a message out from under a reaction. *)
Theorem reachable_references s :
  reachable s →
  (∀ re, In re (reactions (db s)) →
         (∃ m, In m (messages (db s)) ∧ m_id m = re_messageId re)
         ∧ user_exists (db s) (re_userId re) = true)
  ∧ (∀ m, In m (messages (db s)) →
          room_exists (db s) (m_roomId m) = true
          ∧ user_exists (db s) (m_userId m) = true)
  ∧ (∀ rm, In rm (roomMembers (db s)) →
           room_exists (db s) (rm_roomId rm) = true
           ∧ user_exists (db s) (rm_userId rm) = true)
  ∧ (∀ room uid, In room (rooms (db s)) → r_createdBy room = Some uid →
                 user_exists (db s) uid = true).
Proof.
  intros Hs. apply reachable_Integrity in Hs. destruct Hs.
  split; [|split; [|split]]; try done.
  intros re Hre. destruct (int_reactions0 re Hre) as [Hmsg Husr]. split; [|done].
  apply existsb_exists in Hmsg as (m & Hm & Hid). apply Z.eqb_eq in Hid. eauto.
Qed.

End ReachableQueries.

(** ** Storage: the public room, the sweep, reactions, history *)

Lemma filter_nil_of_existsb {A} (f : A → bool) (l : list A) :
  existsb f l = false → List.filter f l = [].
Proof.
  induction l as [|a l IH]; simpl; [done|].
  intros Hl. apply orb_false_iff in Hl as [-> Hl]. by apply IH.
Qed.

Lemma ensurePublicRoom_returns now d :
  ∃ room d1,
    ensurePublicRoom now d = (Ret room, d1)
    ∧ r_isPublic room = true
    ∧ In room (rooms d1)
    ∧ first_row (List.filter r_isPublic (rooms d1)) = Some room
    ∧ users d1 = users d ∧ roomMembers d1 = roomMembers d
    ∧ messages d1 = messages d ∧ reactions d1 = reactions d
    ∧ (d1 = d ∨ rooms d1 = rooms d ++ [room]).
Proof.
  unfold ensurePublicRoom.
  destruct (first_row (List.filter r_isPublic (rooms d))) as [room|] eqn:Hrow.
  - exists room, d. pose proof Hrow as Hrow'.
    apply first_row_filter_Some in Hrow as [Hin Hpub]. naive_solver.
  - unfold insertRoom. simpl. eexists _, _. split; [reflexivity|]. simpl.
    split; [done|]. split; [apply in_app_iff; right; by left|].
    rewrite List.filter_app. simpl.
    apply first_row_filter_None, filter_nil_of_existsb in Hrow. rewrite Hrow.
    naive_solver.
Qed.

(** X5. [ensurePublicRoom] never fails and is idempotent: it returns a
    public room that is stored, and a second call returns the same
    room and leaves the database as the first call left it. *)
Theorem ensurePublicRoom_idempotent now1 now2 d :
  ∃ room d1,
    ensurePublicRoom now1 d = (Ret room, d1)
    ∧ r_isPublic room = true
    ∧ In room (rooms d1)
    ∧ ensurePublicRoom now2 d1 = (Ret room, d1).
Proof.
  destruct (ensurePublicRoom_returns now1 d)
    as (room & d1 & Heq & Hpub & Hin & Hfirst & _).
  exists room, d1. split; [done|]. split; [done|]. split; [done|].
  unfold ensurePublicRoom. by rewrite Hfirst.
Qed.

(** X6. Sweeping twice at the same instant: when the first
    [deleteExpiredMessages] is accepted, no stored message is expired
    any more, and the second call deletes nothing, returns 0 and
    leaves the database unchanged. *)
Theorem deleteExpiredMessages_twice now d count d1 :
  deleteExpiredMessages now d = (Ret count, d1) →
  (∀ m, In m (messages d1) → expired now m = false)
  ∧ deleteExpiredMessages now d1 = (Ret 0%nat, d1).
Proof.
  unfold deleteExpiredMessages at 1.
  destruct (existsb _ _); [done|]. intros Heq. simplify_eq.
  assert (Hnone : List.filter (expired now)
            (List.filter (fun m => negb (expired now m)) (messages d)) = []).
  { induction (messages d) as [|m l IH]; simpl; [done|].
    destruct (expired now m) eqn:Hm; simpl; rewrite ?Hm; done. }
  split.
  - simpl. intros m Hm. apply filter_In in Hm as [_ Hm]. by apply negb_true_iff.
  - unfold deleteExpiredMessages. simpl. rewrite Hnone. simpl.
    rewrite (filter_none_id _ _ Hnone). done.
Qed.

(** X7. After an accepted sweep, the history of no room lists a message
    that was expired at the time of the sweep, and a message without
    an expiry, or with a later one, is listed as before. *)
Theorem swept_history_has_no_expired now d count d1 roomId :
  deleteExpiredMessages now d = (Ret count, d1) →
  (∀ m, In m (getRoomMessages d1 roomId) → expired now m = false)
  ∧ (∀ m, In m (room_rows d roomId) → expired now m = false →
          In m (room_rows d1 roomId)).
Proof.
  intros Hdel.
  pose proof (deleteExpiredMessages_spec now d) as Hspec. rewrite Hdel in Hspec.
  destruct Hspec as (_ & Hmsgs & _). split.
  - intros m Hm.
    destruct (getRoomMessages_limit_spec d1 roomId default_limit)
      as (_ & _ & _ & older & Hperm & _).
    assert (Hin : In m (room_rows d1 roomId)).
    { apply list_elem_of_In. rewrite <- Hperm. apply list_elem_of_In.
      apply in_app_iff. by right. }
    apply filter_In in Hin as [Hin _]. rewrite Hmsgs in Hin.
    apply filter_In in Hin as [_ Hin]. by apply negb_true_iff.
  - intros m Hm Hlive. apply filter_In in Hm as [Hm Hroom].
    apply filter_In. split; [|done]. rewrite Hmsgs. apply filter_In.
    split; [done|]. by rewrite Hlive.
Qed.

(** X8. Adding a reaction and then removing it: for an existing message
    and user, [removeReaction] after [addReaction] on the same triple
    answers [true], leaves no row for the triple and keeps exactly the
    rows of the other triples that were stored before. *)
Theorem removeReaction_after_addReaction now messageId userId emoji d :
  message_exists d messageId = true → user_exists d userId = true →
  let d1 := snd (addReaction now messageId userId emoji d) in
  let '(removed, d2) := removeReaction messageId userId emoji d1 in
  removed = true
  ∧ rows_for d2 messageId userId emoji = []
  ∧ reactions d2
    = List.filter (fun re => negb (same_reaction messageId userId emoji re))
                  (reactions d).
Proof.
  intros Hmsg Husr d1.
  pose proof (removeReaction_spec messageId userId emoji d1) as Hspec.
  assert (Hrows : rows_for d1 messageId userId emoji ≠ []
                  ∧ List.filter (fun re => negb (same_reaction messageId userId emoji re))
                                (reactions d1)
                    = List.filter (fun re => negb (same_reaction messageId userId emoji re))
                                  (reactions d)).
  { subst d1.
    destruct (addReaction_cases now messageId userId emoji d)
      as [(existing & rest & Hex & ->) | [(_ & Hfk & _) | (_ & _ & d' & -> & Hd')]].
    - simpl. by rewrite Hex.
    - by rewrite Hmsg, Husr in Hfk.
    - simpl. rewrite (rows_for_app_one d d' _ _ _ _ Hd'), Hd', List.filter_app. simpl.
      replace (same_reaction messageId userId emoji _) with true
        by (symmetry; by apply same_reaction_spec).
      simpl. rewrite app_nil_r. split; [|done]. by destruct (rows_for d _ _ _). }
  destruct Hrows as [Hne Hsame].
  destruct (removeReaction messageId userId emoji d1) as [removed d2] eqn:Hrm.
  destruct Hspec as (Hiff & Hgone & _ & _).
  split; [by apply Hiff|]. split; [done|].
  unfold removeReaction in Hrm. simplify_eq. simpl. done.
Qed.

(** X9. A message posted after every message of its room is the last
    one of the room's history: when [createMessage] is accepted at a
    clock reading later than the creation time of each message of the
    room, [getRoomMessages] ends with the new message. *)
Theorem posted_message_is_last_in_history
    now roomId userId content expiresAt d message d1 :
  createMessage now roomId userId content expiresAt d = (Ret message, d1) →
  (∀ m, In m (room_rows d roomId) → m_createdAt m < now) →
  last (getRoomMessages d1 roomId) = Some message
  ∧ m_createdAt message = now.
Proof.
  unfold createMessage. destruct (_ && _); [|done]. intros Heq Hold. simplify_eq.
  split; [|done].
  set (message := mkMessage (messages_seq d) roomId userId content now expiresAt).
  unfold getRoomMessages, getRoomMessages_limit. simpl.
  rewrite List.filter_app. simpl. rewrite Z.eqb_refl.
  fold (room_rows d roomId) message.
  set (rows := room_rows d roomId ++ [message]).
  pose proof (merge_sort_Permutation createdAt_desc rows) as Hperm.
  pose proof (StronglySorted_merge_sort createdAt_desc rows) as Hsorted.
  destruct (merge_sort createdAt_desc rows) as [|h rest] eqn:Hms.
  - apply Permutation_nil_l in Hperm. subst rows. by destruct (room_rows d roomId).
  - assert (Hh : h = message).
    { assert (Hhin : In h rows)
        by (apply list_elem_of_In; rewrite <- Hperm; by left).
      subst rows. apply in_app_iff in Hhin as [Hhin | [<- | []]]; [|done].
      assert (Hmin : message ∈ h :: rest)
        by (rewrite Hperm; apply list_elem_of_In, in_app_iff; right; by left).
      apply StronglySorted_cons in Hsorted as [Hall _].
      specialize (Hold h Hhin).
      apply elem_of_cons in Hmin as [Hmin | Hmin]; [done|].
      rewrite Forall_forall in Hall. specialize (Hall message Hmin).
      unfold createdAt_desc in Hall. simpl in Hall. lia. }
    subst h. unfold default_limit. simpl. rewrite reverse_cons. apply last_snoc.
Qed.

Lemma unique_key_single {A} (key : A → Z) (l : list A) (k : Z) (g : A → bool) :
  NoDup (List.map key l) →
  (∀ y, g y = (k =? key y)) →
  existsb (fun y => key y =? k) l = true →
  ∃ x, In x l ∧ key x = k ∧ List.filter g l = [x].
Proof.
  intros Hnd Hg. induction l as [|a l IH]; simpl; intros Hex; [done|].
  apply NoDup_cons in Hnd as [Ha Hnd]. rewrite Hg.
  destruct (Z.eqb_spec k (key a)) as [->|Hne].
  - exists a. split; [by left|]. split; [done|]. f_equal.
    clear -Ha Hg. induction l as [|b l IH]; simpl in *; [done|].
    rewrite Hg. destruct (Z.eqb_spec (key a) (key b)) as [Heq|Hne].
    + exfalso. apply Ha. rewrite Heq. by left.
    + apply IH. intros Hin. apply Ha. by right.
  - replace (key a =? k) with false in Hex
      by (symmetry; apply Z.eqb_neq; congruence).
    destruct (IH Hnd Hex) as (x & Hin & Hk & Hfilter).
    exists x. split; [by right|]. done.
Qed.

Lemma getMessagesReactions_rows d messageIds :
  Integrity d →
  List.map rw_reaction (getMessagesReactions d messageIds)
  = List.filter (fun re => existsb (fun i => re_messageId re =? i) messageIds)
                (reactions d)
  ∧ ∀ rw, In rw (getMessagesReactions d messageIds) →
          ∃ u, In u (users d) ∧ u_id u = re_userId (rw_reaction rw)
               ∧ rw_username rw = u_username u
               ∧ rw_walletAddress rw = u_walletAddress u.
Proof.
  intros Hint. unfold getMessagesReactions.
  destruct messageIds as [|i0 ids].
  { split; [|done]. simpl. induction (reactions d); simpl; done. }
  remember (i0 :: ids) as wanted eqn:Hwanted. clear Hwanted.
  assert (Hrefs : ∀ re, In re (reactions d) → user_exists d (re_userId re) = true)
    by (intros re Hre; by apply (int_reactions _ Hint)).
  pose proof (int_user_keys _ Hint) as Hkeys.
  split.
  - induction (reactions d) as [|re l IH]; simpl; [done|].
    rewrite List.map_app, IH by (intros re' Hre'; apply Hrefs; by right).
    specialize (Hrefs re (or_introl eq_refl)).
    destruct (existsb (fun i => re_messageId re =? i) wanted) eqn:Hin.
    + destruct (unique_key_single u_id (users d) (re_userId re)
                  (fun u => (re_userId re =? u_id u) && true) Hkeys)
        as (u & _ & _ & ->); [intros y; apply andb_true_r | exact Hrefs |].
      done.
    + assert (List.filter (fun u => (re_userId re =? u_id u) && false) (users d) = [])
        as ->; [|done].
      clear. induction (users d) as [|u us IHu]; simpl; [done|].
      by destruct (re_userId re =? u_id u).
  - intros rw Hrw. apply in_flat_map in Hrw as (re & Hre & Hrw).
    apply in_map_iff in Hrw as (u & <- & Hu).
    apply filter_In in Hu as [Hu Hid]. apply andb_true_iff in Hid as [Hid _].
    apply Z.eqb_eq in Hid. exists u. done.
Qed.


(** ** Membership: insert and lookups *)

Lemma getUserRooms_In d userId room :
  In room (getUserRooms d userId)
  ↔ In room (rooms d) ∧ isRoomMember d (r_id room) userId = true.
Proof.
  unfold getUserRooms. rewrite join_members_rooms_In, isRoomMember_spec. split.
  - intros (rm & Hrm & Hroom & Hid & Hu). apply Z.eqb_eq in Hu. eauto 10.
  - intros (Hroom & rm & Hrm & Hid & Hu). exists rm. subst userId.
    by rewrite Z.eqb_refl.
Qed.

Lemma getRoomMembers_In d roomId user :
  In user (getRoomMembers d roomId)
  ↔ In user (users d) ∧ isRoomMember d roomId (u_id user) = true.
Proof.
  unfold getRoomMembers. rewrite in_flat_map, isRoomMember_spec. split.
  - intros (rm & Hrm & Hu). apply filter_In in Hu as [Hu Hk].
    apply andb_true_iff in Hk as [Hid Hr].
    apply Z.eqb_eq in Hid, Hr. split; [done|]. by exists rm.
  - intros (Hu & rm & Hrm & Hr & Hid). exists rm. split; [done|].
    apply filter_In. split; [done|]. by rewrite Hid, Hr, !Z.eqb_refl.
Qed.


(** ** The relay: binding, rooms, presence *)

#[local] Arguments getUserRooms : simpl never.
#[local] Arguments ensurePublicRoom : simpl never.

Ltac unfold_relay :=
  unfold run, on_auth, on_create_room, on_disconnect, on_room_op, on_join_room,
    on_send_message, on_add_reaction, on_remove_reaction, on_typing,
    on_stop_typing, on_create_private_chat, not_authenticated, socket_join,
    try_catch, query, statement, deref, throw, emit, modify, get_state,
    console, skip, mbind, mret, M_bind, M_ret.

Lemma join_rooms_projections socketId (userRooms : list Room) s :
  let s' := foldl (fun acc room =>
                     set_socketRooms
                       (fun rs => {[ (socketId, pretty (r_id room)) ]} ∪ rs) acc)
                  s userRooms in
  nonceStore s' = nonceStore s ∧ sessions s' = sessions s
  ∧ socketToUser s' = socketToUser s ∧ db s' = db s
  ∧ ∀ x, x ∈ socketRooms s'
         ↔ x ∈ socketRooms s
           ∨ ∃ room, In room userRooms ∧ x = (socketId, pretty (r_id room)).
Proof.
  revert s. induction userRooms as [|room userRooms IH]; intros s; simpl.
  - do 4 (split; [done|]). intros x. split; [by left|].
    by intros [Hx | (room & [] & _)].
  - destruct (IH (set_socketRooms
                    (fun rs => {[ (socketId, pretty (r_id room)) ]} ∪ rs) s))
      as (-> & -> & -> & -> & Hrooms).
    do 4 (split; [done|]). intros x. rewrite Hrooms. simpl.
    rewrite elem_of_union, elem_of_singleton. split.
    + intros [[-> | Hx] | (r & Hr & ->)]; [right | by left | right].
      * exists room. split; [by left | done].
      * exists r. split; [by right | done].
    + intros [Hx | (r & [<- | Hr] & ->)]; [left; by right | left; by left | right].
      by exists r.
Qed.

Lemma In_room_exists d room : In room (rooms d) → room_exists d (r_id room) = true.
Proof. intros Hin. apply existsb_exists. exists room. by rewrite Z.eqb_refl. Qed.

(** The run of [auth] when the session names a stored user. *)
Lemma on_auth_run now socketId sessionId s userId user :
  sessions s !! sessionId = Some userId → userId ≠ 0 →
  getUser (db s) userId = Some user →
  ∃ room d1 d2,
    ensurePublicRoom now (db s) = (Ret room, d1)
    ∧ d2 = (if isRoomMember d1 (r_id room) userId then d1
            else snd (addRoomMember now (r_id room) userId d1))
    ∧ run (on_auth now socketId sessionId) s
      = (foldl (fun acc r =>
                  set_socketRooms (fun rs => {[ (socketId, pretty (r_id r)) ]} ∪ rs) acc)
               (set_db d2 (set_socketToUser (insert socketId userId) s))
               (getUserRooms d2 userId),
         [(ToSocket socketId,
           EvAuthSuccess userId (u_username user) (u_walletAddress user)
                         (getUserRooms d2 userId));
          (ToAllExceptSender socketId,
           EvUserOnline userId (u_username user) (u_walletAddress user))])
    ∧ r_isPublic room = true ∧ In room (rooms d2)
    ∧ isRoomMember d2 (r_id room) userId = true
    ∧ first_row (List.filter r_isPublic (rooms d2)) = Some room
    ∧ users d2 = users (db s) ∧ messages d2 = messages (db s).
Proof.
  intros Hsess Hne Hget.
  destruct (user_exists_of_getUser _ _ _ Hget) as [Hex Hid].
  destruct (ensurePublicRoom_returns now (db s))
    as (room & d1 & Hens & Hpub & Hin & Hfirst & Husers & Hrm & Hmsgs & _ & _).
  assert (Hex1 : user_exists d1 userId = true)
    by (unfold user_exists in *; by rewrite Husers).
  exists room, d1. eexists. split; [done|]. split; [reflexivity|].
  unfold_relay. rewrite (truthy_id_Some _ _ _ Hsess Hne). simpl.
  rewrite Hget. simpl. rewrite Hens. simpl. rewrite Hid.
  destruct (isRoomMember d1 (r_id room) userId) eqn:Hmem; simpl.
  - done.
  - unfold addRoomMember. rewrite (In_room_exists _ _ Hin), Hex1. simpl.
    split; [done|]. split; [done|]. split; [done|]. split.
    { unfold isRoomMember. simpl. rewrite existsb_app. simpl.
      by rewrite !Z.eqb_refl, orb_true_r. }
    done.
Qed.

(** X12. [auth] on a connection whose session names a stored user binds
    the connection to that user, makes the user a member of the public
    room (created if there was none), subscribes the connection to
    every room of the user, answers [auth_success] with those rooms,
    the public one among them, and announces [user_online] to all the
    other connections. Users and messages are untouched. *)
Theorem auth_binds_and_joins_public_room
    now socketId sessionId s userId user :
  sessions s !! sessionId = Some userId → userId ≠ 0 →
  getUser (db s) userId = Some user →
  let '(s', out) := run (on_auth now socketId sessionId) s in
  let userRooms := getUserRooms (db s') userId in
  socketToUser s' = <[socketId := userId]> (socketToUser s)
  ∧ out = [(ToSocket socketId,
            EvAuthSuccess userId (u_username user) (u_walletAddress user) userRooms);
           (ToAllExceptSender socketId,
            EvUserOnline userId (u_username user) (u_walletAddress user))]
  ∧ (∃ publicRoom, In publicRoom userRooms ∧ r_isPublic publicRoom = true)
  ∧ (∀ room, In room userRooms → (socketId, pretty (r_id room)) ∈ socketRooms s')
  ∧ users (db s') = users (db s) ∧ messages (db s') = messages (db s).
Proof.
  intros Hsess Hne Hget.
  destruct (on_auth_run now socketId sessionId s userId user Hsess Hne Hget)
    as (room & d1 & d2 & _ & _ & -> & Hpub & Hin & Hmem & _ & Husers & Hmsgs).
  match goal with
  | |- context [foldl ?f ?s0 ?l] =>
      pose proof (join_rooms_projections socketId l s0) as Hproj;
      cbv zeta in Hproj; set (s' := foldl f s0 l) in *
  end.
  destruct Hproj as (_ & _ & Hs & Hd & Hr). cbv zeta. rewrite Hs, Hd. simpl.
  split; [done|]. split; [done|]. split; [|split; [|done]].
  - exists room. split; [|done]. by apply getUserRooms_In.
  - intros r Hr'. apply Hr. right. by exists r.
Qed.

(** X13. Authenticating again changes nothing in the database: after an
    [auth] that succeeded, a second [auth] of the same connection and
    session adds no membership row and no room, and answers the same
    two events. *)
Theorem auth_again_is_idempotent
    now1 now2 socketId sessionId s userId user :
  sessions s !! sessionId = Some userId → userId ≠ 0 →
  getUser (db s) userId = Some user →
  let '(s1, out1) := run (on_auth now1 socketId sessionId) s in
  let '(s2, out2) := run (on_auth now2 socketId sessionId) s1 in
  db s2 = db s1 ∧ out2 = out1 ∧ socketToUser s2 = socketToUser s1.
Proof.
  intros Hsess Hne Hget.
  destruct (on_auth_run now1 socketId sessionId s userId user Hsess Hne Hget)
    as (room & d1 & d2 & _ & _ & -> & Hpub & Hin & Hmem & Hfirst & Husers & _).
  match goal with
  | |- context [foldl ?f ?s0 ?l] =>
      pose proof (join_rooms_projections socketId l s0) as Hproj;
      cbv zeta in Hproj; set (s1 := foldl f s0 l) in *
  end.
  destruct Hproj as (_ & Hsess1 & Hs1 & Hd1 & _). simpl in Hsess1, Hs1, Hd1.
  assert (Hsess' : sessions s1 !! sessionId = Some userId) by (by rewrite Hsess1).
  assert (Hget' : getUser (db s1) userId = Some user)
    by (rewrite Hd1; unfold getUser in *; by rewrite Husers).
  destruct (on_auth_run now2 socketId sessionId s1 userId user Hsess' Hne Hget')
    as (room' & d1' & d2' & Hens' & Hd2' & -> & _).
  rewrite Hd1 in Hens'. unfold ensurePublicRoom in Hens'. rewrite Hfirst in Hens'.
  simplify_eq. rewrite Hmem, Hd1.
  match goal with
  | |- context [foldl ?f ?s0 ?l] =>
      pose proof (join_rooms_projections socketId l s0) as Hproj;
      cbv zeta in Hproj; set (s2 := foldl f s0 l) in *
  end.
  destruct Hproj as (_ & _ & Hs2 & Hd2 & _). simpl in Hs2, Hd2.
  rewrite Hd2, Hs2, Hs1. split; [done|]. split; [done|].
  apply insert_insert_eq.
Qed.

(** X14. [auth] binds a connection to nobody but the user of its
    session: whatever happens in the handler, a binding that holds
    afterwards either held before or is the binding of this
    connection to the user its session names, who is stored. *)
Theorem auth_binds_only_the_session_user now socketId sessionId s :
  let '(s', _) := run (on_auth now socketId sessionId) s in
  ∀ socketId' userId',
    socketToUser s' !! socketId' = Some userId' →
    socketToUser s !! socketId' = Some userId'
    ∨ (socketId' = socketId ∧ sessions s !! sessionId = Some userId'
       ∧ user_exists (db s) userId' = true).
Proof.
  destruct (truthy_id (sessions s !! sessionId)) as [userId|] eqn:Htruthy.
  - assert (Hsess : sessions s !! sessionId = Some userId ∧ userId ≠ 0).
    { destruct (sessions s !! sessionId) as [[| |]|]; simplify_eq/=; done. }
    destruct Hsess as [Hsess Hne].
    destruct (getUser (db s) userId) as [user|] eqn:Hget.
    + destruct (on_auth_run now socketId sessionId s userId user Hsess Hne Hget)
        as (room & d1 & d2 & _ & _ & -> & _).
      match goal with
      | |- context [foldl ?f ?s0 ?l] =>
          pose proof (join_rooms_projections socketId l s0) as Hproj;
          cbv zeta in Hproj; set (s' := foldl f s0 l) in *
      end.
      destruct Hproj as (_ & _ & Hs & _). simpl in Hs. rewrite Hs.
      intros socketId' userId' Hbound.
      destruct (decide (socketId = socketId')) as [<-|Hother].
      * rewrite lookup_insert_eq in Hbound. simplify_eq. right.
        split; [done|]. split; [done|]. by eapply user_exists_of_getUser.
      * rewrite lookup_insert_ne in Hbound by done. by left.
    + unfold_relay. rewrite Htruthy. simpl. rewrite Hget. simpl. by left.
  - unfold_relay. rewrite Htruthy. simpl. by left.
Qed.

(** X15. [disconnect] of a bound connection removes its binding and no
    other, leaves the database alone and, when the user is stored,
    announces [user_offline] to every other connection, whatever rooms
    they are in. From then on the connection is refused: each room
    operation on it leaves the state as it is and sends either "Not
    authenticated" to the connection or, for the typing indicators,
    nothing. *)
Theorem disconnect_unbinds socketId s userId :
  socketToUser s !! socketId = Some userId → userId ≠ 0 →
  let '(s', out) := run (on_disconnect socketId) s in
  socketToUser s' = delete socketId (socketToUser s)
  ∧ db s' = db s ∧ sessions s' = sessions s ∧ socketRooms s' = socketRooms s
  ∧ out = match getUser (db s) userId with
          | Some user => [(ToAllExceptSender socketId,
                           EvUserOffline userId (u_username user))]
          | None => []
          end
  ∧ ∀ now op,
      run (on_room_op now socketId op) s'
      = (s', match op with
             | typing _ | stop_typing _ => []
             | _ => [(ToSocket socketId, EvError "Not authenticated")]
             end).
Proof.
  intros Hbound Hne. unfold run at 1, on_disconnect.
  unfold try_catch, query, modify, emit, get_state, console, skip,
    mbind, mret, M_bind, M_ret.
  rewrite (truthy_id_Some _ _ _ Hbound Hne). simpl.
  assert (Hrefused : ∀ s', socketToUser s' = delete socketId (socketToUser s) →
    ∀ now op,
      run (on_room_op now socketId op) s'
      = (s', match op with
             | typing _ | stop_typing _ => []
             | _ => [(ToSocket socketId, EvError "Not authenticated")]
             end)).
  { intros s' Hs' now op.
    assert (Hnone : truthy_id (socketToUser s' !! socketId) = None)
      by (by rewrite Hs', lookup_delete_eq).
    destruct op; unfold_relay; simpl; by rewrite Hnone. }
  destruct (getUser (db s) userId); simpl;
    (do 5 (split; [done|])); by apply Hrefused.
Qed.

(** X16. [create_room] by a connection bound to a stored user stores a
    room that is never public, created by that user, named "New Chat"
    when no name is given, a group only when asked; the creator is a
    member of it, the connection is subscribed to it, and
    [room_created] carries the stored row to the creator alone. *)
Theorem create_room_makes_creator_member now socketId name isGroup s userId :
  socketToUser s !! socketId = Some userId → userId ≠ 0 →
  user_exists (db s) userId = true →
  let '(s', out) := run (on_create_room now socketId name isGroup) s in
  ∃ room,
    out = [(ToSocket socketId, EvRoomCreated room)]
    ∧ rooms (db s') = rooms (db s) ++ [room]
    ∧ r_id room = rooms_seq (db s)
    ∧ r_isPublic room = false
    ∧ r_isGroup room = default false isGroup
    ∧ r_createdBy room = Some userId
    ∧ (name = None ∨ name = Some "" → r_name room = "New Chat")
    ∧ isRoomMember (db s') (r_id room) userId = true
    ∧ In room (getUserRooms (db s') userId)
    ∧ (socketId, pretty (r_id room)) ∈ socketRooms s'.
Proof.
  intros Hbound Hne Hex. unfold_relay.
  rewrite (truthy_id_Some _ _ _ Hbound Hne). simpl.
  unfold createRoom, insertRoom. rewrite Hex. simpl.
  unfold addRoomMember, room_exists. simpl. rewrite existsb_app. simpl.
  rewrite Z.eqb_refl, orb_true_r. unfold user_exists in *. simpl. rewrite Hex. simpl.
  eexists. split; [reflexivity|]. simpl.
  assert (Hmem : ∀ d', roomMembers d'
                       = roomMembers (db s)
                         ++ [mkRoomMember (roomMembers_seq (db s)) (rooms_seq (db s))
                                          userId now] →
                 isRoomMember d' (rooms_seq (db s)) userId = true).
  { intros d' Hd'. unfold isRoomMember. rewrite Hd', existsb_app. simpl.
    by rewrite !Z.eqb_refl, orb_true_r. }
  do 5 (split; [done|]). split; [by intros [-> | ->]|].
  split; [by apply Hmem|]. split.
  - apply getUserRooms_In. simpl. split; [apply in_app_iff; right; by left|].
    by apply Hmem.
  - set_solver.
Qed.

(** The run of [join_room] on a connection bound to a stored user. *)
Lemma on_join_room_run now socketId roomId s userId :
  socketToUser s !! socketId = Some userId → userId ≠ 0 →
  user_exists (db s) userId = true →
  match getRoom (db s) roomId with
  | None =>
      run (on_join_room now socketId roomId) s
      = (s, [(ToSocket socketId, EvError "Room not found")])
  | Some room =>
      ∃ d' members reactions user,
        run (on_join_room now socketId roomId) s
        = (set_socketRooms (fun rs => {[ (socketId, pretty roomId) ]} ∪ rs)
             (set_db d' s),
           [(ToSocket socketId,
             EvRoomJoined room members
               (List.map message_view (getRoomMessages (db s) roomId)) reactions);
            (ToRoomExceptSender (pretty roomId) socketId,
             EvUserJoinedRoom roomId (u_username user))])
        ∧ d' = (if isRoomMember (db s) roomId userId then db s
                else snd (addRoomMember now roomId userId (db s)))
        ∧ isRoomMember d' roomId userId = true
  end.
Proof.
  intros Hbound Hne Huser.
  destruct (getRoom (db s) roomId) as [room|] eqn:Hroom.
  - destruct (getUser_of_exists _ _ Huser) as (user & Hget & _).
    destruct (room_exists_of_getRoom _ _ _ Hroom) as [Hex _].
    unfold_relay. rewrite (truthy_id_Some _ _ _ Hbound Hne), Hroom. simpl.
    destruct (isRoomMember (db s) roomId userId) eqn:Hmem; simpl.
    + rewrite Hget. simpl. eexists (db s), _, _, user.
      split; [by destruct s|]. done.
    + unfold addRoomMember. rewrite Hex, Huser. simpl.
      unfold getUser in *. simpl. rewrite Hget. simpl.
      eexists _, _, _, user. split; [reflexivity|]. split; [done|].
      unfold isRoomMember. simpl. rewrite existsb_app. simpl.
      by rewrite !Z.eqb_refl, orb_true_r.
  - unfold_relay. by rewrite (truthy_id_Some _ _ _ Hbound Hne), Hroom.
Qed.

(** X17. [join_room] has no access check: on a connection bound to a
    stored user, joining any stored room, a private one included,
    makes the user a member of it and subscribes the connection to it;
    a user who is a member already gets no second membership row. A
    room identifier that is not stored is answered with "Room not
    found" and nothing changes. *)
Theorem join_room_admits_any_user now socketId roomId s userId :
  socketToUser s !! socketId = Some userId → userId ≠ 0 →
  user_exists (db s) userId = true →
  let '(s', out) := run (on_join_room now socketId roomId) s in
  match getRoom (db s) roomId with
  | Some room =>
      isRoomMember (db s') roomId userId = true
      ∧ (socketId, pretty roomId) ∈ socketRooms s'
      ∧ (isRoomMember (db s) roomId userId = true → db s' = db s)
      ∧ (isRoomMember (db s) roomId userId = false →
         ∃ row, roomMembers (db s') = roomMembers (db s) ++ [row]
                ∧ rm_roomId row = roomId ∧ rm_userId row = userId)
      ∧ rooms (db s') = rooms (db s) ∧ messages (db s') = messages (db s)
  | None =>
      s' = s ∧ out = [(ToSocket socketId, EvError "Room not found")]
  end.
Proof.
  intros Hbound Hne Huser.
  pose proof (on_join_room_run now socketId roomId s userId Hbound Hne Huser) as Hrun.
  destruct (getRoom (db s) roomId) as [room|] eqn:Hroom; [|by rewrite Hrun].
  destruct Hrun as (d' & members & reactions & user & -> & Hd' & Hmem).
  destruct (room_exists_of_getRoom _ _ _ Hroom) as [Hex _].
  simpl. split; [done|]. split; [set_solver|].
  destruct (isRoomMember (db s) roomId userId) eqn:Hwas; subst d'.
  - done.
  - split; [done|]. unfold addRoomMember. rewrite Hex, Huser. simpl.
    split; [|done]. intros _. by eexists.
Qed.

(** The run of [add_reaction] on a connection bound to a stored user. *)
Lemma on_add_reaction_run now socketId messageId emoji roomId s userId user :
  socketToUser s !! socketId = Some userId → userId ≠ 0 →
  getUser (db s) userId = Some user →
  run (on_add_reaction now socketId messageId emoji roomId) s
  = match addReaction now messageId userId emoji (db s) with
    | (Ret reaction, d') =>
        (set_db d' s,
         [(ToRoom (pretty roomId),
           EvReactionAdded (re_id reaction) (re_messageId reaction)
             (re_userId reaction) (re_emoji reaction)
             (u_username user) (u_walletAddress user))])
    | (Throw _, d') =>
        (set_db d' s, [(ToSocket socketId, EvError "Failed to add reaction")])
    end.
Proof.
  intros Hbound Hne Hget. unfold_relay.
  rewrite (truthy_id_Some _ _ _ Hbound Hne).
  pose proof (addReaction_cases now messageId userId emoji (db s)) as Hcases.
  destruct (addReaction now messageId userId emoji (db s)) as [[reaction|err] d'] eqn:Hadd;
    simpl; [|done].
  assert (Hget' : getUser d' userId = Some user).
  { destruct Hcases as [(? & ? & _ & ?) | [(_ & _ & ? & ?) | (_ & _ & d'' & Heq & Hd'')]];
      simplify_eq; [done|].
    unfold addReaction in Hadd. destruct (first_row _); [by simplify_eq|].
    destruct (_ && _); by simplify_eq. }
  by rewrite Hget'.
Qed.


(** ** An error answer means nothing was written *)

Lemma truthy_id_inv (ids : gmap string Z) (socketId : string) (userId : Z) :
  truthy_id (ids !! socketId) = Some userId →
  ids !! socketId = Some userId ∧ userId ≠ 0.
Proof. destruct (ids !! socketId) as [[| |]|]; intros; simplify_eq/=; done. Qed.

Lemma on_send_message_run now socketId roomId content expiresAt s userId user :
  socketToUser s !! socketId = Some userId → userId ≠ 0 →
  getUser (db s) userId = Some user →
  memberships_reference (db s) = true →
  run (on_send_message now socketId roomId content expiresAt) s
  = if isRoomMember (db s) roomId userId
    then (set_db (snd (createMessage now roomId userId content expiresAt (db s))) s,
          [(ToRoom (pretty roomId),
            EvNewMessage (messages_seq (db s)) roomId userId (u_username user)
                         content now expiresAt)])
    else (s, [(ToSocket socketId, EvError "Not a member of this room")]).
Proof.
  intros Hbound Hne Hget Hfk. unfold_relay.
  rewrite (truthy_id_Some _ _ _ Hbound Hne).
  destruct (isRoomMember (db s) roomId userId) eqn:Hmem; simpl; [|done].
  destruct (member_references _ _ _ Hfk Hmem) as [Hroom Huser].
  unfold createMessage. rewrite Hroom, Huser. simpl.
  unfold getUser in *. simpl. by rewrite Hget.
Qed.

(** Closes a goal whose premise is an [error] event in a list that
    holds none. *)
Ltac no_error :=
  let Hin := fresh "Hin" in
  intros (? & ? & Hin); simpl in Hin;
  repeat (destruct Hin as [Hin|Hin]; [discriminate|]); done.

Section ErrorsWriteNothing.
Context `{Crypto}.


End ErrorsWriteNothing.

(** ** The authentication routes: errors, overwriting, provisioning *)

Section AuthenticationRoutes.
Context `{Crypto}.

(** X20. A new challenge replaces the old one without a trace: two
    [POST /api/auth/nonce] for the same valid wallet leave the state
    that the second alone would leave, with the second challenge
    stored, and the challenges of the other wallets are untouched. A
    request with an empty or malformed wallet is answered 400 and
    changes nothing. *)
Theorem nonce_request_overwrites now1 rnd1 now2 rnd2 w s :
  let s1 := fst (post_auth_nonce now1 rnd1 w s) in
  let '(s2, r2) := post_auth_nonce now2 rnd2 w s1 in
  if negb (falsy_string w) && PublicKey_ok w
  then
    s2 = fst (post_auth_nonce now2 rnd2 w s)
    ∧ nonceStore s2 !! w
      = Some (mkChallenge rnd2 (challenge_message rnd2 w) now2)
    ∧ (∀ w', w' ≠ w → nonceStore s2 !! w' = nonceStore s !! w')
    ∧ r2 = mkResponse 200 (BodyNonce (challenge_message rnd2 w) rnd2)
  else
    s2 = s ∧ status r2 = 400.
Proof.
  unfold post_auth_nonce.
  destruct (falsy_string w); simpl; [done|].
  destruct (PublicKey_ok w); simpl; [|done].
  unfold set_nonceStore. simpl. rewrite insert_insert_eq.
  split; [done|]. split; [apply lookup_insert_eq|]. split; [|done].
  intros w' Hne. by apply lookup_insert_ne.
Qed.


(** X22. First-seen provisioning: a verification answered 200 returns
    the stored user of the wallet when there is one, whatever
    [username] the request carries, and otherwise appends exactly one
    user, with the next identifier of the sequence, the wallet, and as
    name the requested one or, when none is given, ["User_"] followed
    by the first six characters of the wallet. In both cases the
    challenge is dropped and the session is bound to that user. *)
Theorem verify_provisions_once now sessionId w signature username s :
  let '(s', r) := post_auth_verify now sessionId w signature username s in
  status r = 200 →
  ∃ user,
    body r = BodyUser user
    ∧ u_walletAddress user = w
    ∧ sessions s' = <[sessionId := u_id user]> (sessions s)
    ∧ nonceStore s' = delete w (nonceStore s)
    ∧ match getUserByWallet (db s) w with
      | Some stored => user = stored ∧ db s' = db s
      | None =>
          user = mkUser (users_seq (db s)) (Some (displayName username w)) w now
          ∧ users (db s') = users (db s) ++ [user]
          ∧ (username = None ∨ username = Some "" →
             u_username user = Some ("User_" +:+ String.substring 0 6 w))
      end.
Proof.
  unfold post_auth_verify.
  destruct (falsy_string w || falsy_string signature); [done|].
  destruct (nonceStore s !! w) as [stored|]; [|done].
  destruct (now - timestamp stored >? nonce_ttl); [done|].
  destruct (negb (PublicKey_ok w)); [done|].
  destruct (nacl_sign_detached_verify _ _ _) as [[|]|err]; [|done..].
  simpl. destruct (getUserByWallet (db s) w) as [user|] eqn:Huser.
  - intros _. exists user. split; [done|].
    split; [by eapply getUserByWallet_wallet|]. done.
  - unfold createUser. apply first_row_filter_None in Huser. rewrite Huser.
    intros _. eexists. split; [reflexivity|]. simpl.
    do 5 (split; [done|]). by intros [-> | ->].
Qed.

End AuthenticationRoutes.

(** ** The assistant route *)

(** X23. [POST /api/ai/chat] answers 200 only to a request whose session
    names a user and whose message is a non-empty string, and then
    with a reply that is never empty (the fallback text stands in for
    a missing or empty completion); every other answer carries one of
    three fixed error texts, so the text of an upstream failure never
    reaches the client. *)
Theorem ai_chat_answers `{Assistant} sessionId message s :
  let r := post_ai_chat sessionId message s in
  (ai_status r = 200 →
   ∃ reply userId text,
     ai_body r = AiReply reply ∧ reply ≠ ""
     ∧ sessions s !! sessionId = Some userId ∧ userId ≠ 0
     ∧ message = Some text ∧ text ≠ "")
  ∧ (ai_status r ≠ 200 →
     (ai_status r = 401 ∧ ai_body r = AiError "Not authenticated")
     ∨ (ai_status r = 400 ∧ ai_body r = AiError "Message is required")
     ∨ (ai_status r = 500 ∧ ai_body r = AiError "Failed to get AI response")).
Proof.
  unfold post_ai_chat.
  destruct (truthy_id (sessions s !! sessionId)) as [userId|] eqn:Ht; simpl;
    [|split; [done | auto]].
  apply truthy_id_inv in Ht as [Hs Hne].
  destruct message as [text|]; simpl; [|split; [done | auto]].
  destruct (falsy_string text) eqn:Htext; simpl; [split; [done | auto]|].
  apply String.eqb_neq in Htext.
  unfold getCryptoAssistantResponse.
  destruct (completions_create text) as [[c|]|err]; simpl;
    [| |split; [done | auto]].
  - split; [|done]. intros _. eexists _, userId, text.
    split; [reflexivity|]. split; [|done].
    destruct (falsy_string c) eqn:Hc; [done|]. by apply String.eqb_neq.
  - split; [|done]. intros _. by exists assistant_fallback, userId, text.
Qed.

(** ** The client's store of reactions *)

Lemma find_existsb {A} (f : A → bool) (l : list A) :
  List.find f l = None ↔ existsb f l = false.
Proof.
  induction l as [|a l IH]; simpl; [done|].
  destruct (f a); simpl; [split; discriminate | exact IH].
Qed.

Lemma on_reaction_added_spec data store :
  Client.on_reaction_added data store
  = if existsb (Client.same_reactor (Client.e_userId data) (Client.e_emoji data))
               (shown store (Client.e_messageId data))
    then store
    else <[Client.e_messageId data := shown store (Client.e_messageId data) ++ [data]]>
           store.
Proof.
  unfold Client.on_reaction_added, shown.
  destruct (store !! Client.e_messageId data) as [l|] eqn:Hl; simpl.
  - rewrite Hl. simpl.
    destruct (List.find _ l) as [existing|] eqn:Hfind.
    + apply find_some in Hfind as [Hin Hsame].
      assert (existsb (Client.same_reactor (Client.e_userId data)
                         (Client.e_emoji data)) l = true) as ->; [|done].
      apply existsb_exists. by exists existing.
    + apply find_existsb in Hfind. by rewrite Hfind.
  - rewrite lookup_insert_eq. simpl. by rewrite insert_insert_eq.
Qed.

Lemma same_reactor_spec userId emoji r :
  Client.same_reactor userId emoji r = true
  ↔ (Client.e_userId r, Client.e_emoji r) = (userId, emoji).
Proof.
  unfold Client.same_reactor. rewrite andb_true_iff, Z.eqb_eq, String.eqb_eq.
  split; [by intros [-> ->] | by intros [= -> ->]].
Qed.

(** X24. The client never shows a user twice with one emoji: a store in
    which every list has distinct (user, emoji) pairs keeps that
    through every [reaction_added] and [reaction_removed] event, so
    through every sequence of them from the empty store; in
    particular a [reaction_added] that the server sends twice is
    shown once. *)
Theorem client_store_stays_distinct store events :
  distinct_reactors store →
  forallb edits_store events = true →
  distinct_reactors (foldl (fun st e => Client.receive e st) store events)
  ∧ ∀ e, edits_store e = true →
         Client.receive e (Client.receive e store) = Client.receive e store.
Proof.
  intros Hdistinct Hevents. split.
  - revert store Hdistinct. induction events as [|e events IH];
      intros store Hdistinct; simpl in *; [done|].
    apply andb_true_iff in Hevents as [He Hevents]. apply IH; [done|].
    destruct e; try done; simpl.
    + rewrite on_reaction_added_spec. simpl.
      destruct (existsb _ _) eqn:Hex; [done|].
      intros mid l Hl. destruct (decide (messageId = mid)) as [<-|Hne].
      * rewrite lookup_insert_eq in Hl. simplify_eq.
        rewrite List.map_app. simpl. apply NoDup_app. split; [|split].
        -- unfold shown. destruct (store !! messageId) as [l|] eqn:Hl; simpl;
             [by eapply Hdistinct | apply NoDup_nil_2].
        -- intros pair Hpair Hnew. apply list_elem_of_singleton in Hnew as ->.
           apply list_elem_of_In, in_map_iff in Hpair as (r & Hr & Hin).
           assert (Client.same_reactor userId emoji r = false) as Hno.
           { rewrite <- not_true_iff_false. intros Hyes.
             assert (existsb (Client.same_reactor userId emoji)
                             (shown store messageId) = true) as Hall
               by (apply existsb_exists; by exists r).
             congruence. }
           apply same_reactor_spec in Hr. congruence.
        -- apply NoDup_singleton.
      * rewrite lookup_insert_ne in Hl by done. by eapply Hdistinct.
    + unfold Client.on_reaction_removed.
      destruct (store !! messageId) as [l0|] eqn:Hl0; [|done].
      intros mid l Hl. destruct (decide (messageId = mid)) as [<-|Hne].
      * rewrite lookup_insert_eq in Hl. simplify_eq.
        apply keys_filter. by eapply Hdistinct.
      * rewrite lookup_insert_ne in Hl by done. by eapply Hdistinct.
  - intros e He. destruct e; try done; simpl.
    + rewrite !on_reaction_added_spec. simpl.
      destruct (existsb _ (shown store messageId)) eqn:Hex; [by rewrite Hex|].
      unfold shown at 1. rewrite lookup_insert_eq. simpl.
      rewrite existsb_app. simpl.
      assert (Client.same_reactor userId emoji
                (Client.mkEntry id messageId userId emoji username walletAddress)
              = true) as -> by (by apply same_reactor_spec).
      by rewrite orb_true_r.
    + unfold Client.on_reaction_removed.
      destruct (store !! messageId) as [l0|] eqn:Hl0; [|by rewrite Hl0].
      rewrite lookup_insert_eq, insert_insert_eq. f_equal.
      clear. induction l0 as [|r l0 IH]; simpl; [done|].
      destruct (Client.same_reactor userId emoji r) eqn:Hr; simpl;
        rewrite ?Hr; simpl; by rewrite ?IH.
Qed.

Lemma shown_insert (store : gmap Z (list Client.Entry)) m l mid :
  shown (<[m := l]> store) mid = if decide (m = mid) then l else shown store mid.
Proof.
  unfold shown. destruct (decide (m = mid)) as [<-|Hne].
  - by rewrite lookup_insert_eq.
  - by rewrite lookup_insert_ne.
Qed.

Lemma on_room_joined_shown entries mid :
  shown (Client.on_room_joined entries) mid
  = List.filter (fun r => Client.e_messageId r =? mid) entries.
Proof.
  unfold Client.on_room_joined.
  assert (Hgen : ∀ st,
    shown (foldl (fun messageReactions r =>
                    <[Client.e_messageId r :=
                        default [] (messageReactions !! Client.e_messageId r) ++ [r]]>
                      messageReactions) st entries) mid
    = shown st mid ++ List.filter (fun r => Client.e_messageId r =? mid) entries).
  { induction entries as [|r entries IH]; intros st; simpl.
    - by rewrite app_nil_r.
    - rewrite IH, shown_insert.
      destruct (decide (Client.e_messageId r = mid)) as [<-|Hne].
      + rewrite Z.eqb_refl. unfold shown. by rewrite <- app_assoc.
      + by apply Z.eqb_neq in Hne as ->. }
  rewrite Hgen. done.
Qed.

Lemma at_most_one_distinct (l : list Reaction) mid :
  (∀ u e, (length (List.filter (same_reaction mid u e) l) ≤ 1)%nat) →
  NoDup (List.map (fun re => (re_userId re, re_emoji re))
                  (List.filter (fun re => re_messageId re =? mid) l)).
Proof.
  induction l as [|a l IH]; simpl; intros Hone; [apply NoDup_nil_2|].
  assert (Hl : ∀ u e, (length (List.filter (same_reaction mid u e) l) ≤ 1)%nat).
  { intros u e. specialize (Hone u e). destruct (same_reaction mid u e a); simpl in *; lia. }
  destruct (Z.eqb_spec (re_messageId a) mid) as [Hmid|Hmid]; [|by apply IH].
  simpl. apply NoDup_cons. split; [|by apply IH].
  rewrite list_elem_of_In, in_map_iff. intros (re & Hpair & Hin).
  apply filter_In in Hin as [Hin Hre]. apply Z.eqb_eq in Hre.
  specialize (Hone (re_userId a) (re_emoji a)).
  replace (same_reaction mid (re_userId a) (re_emoji a) a) with true in Hone
    by (symmetry; by apply same_reaction_spec).
  assert (Hin' : In re (List.filter (same_reaction mid (re_userId a) (re_emoji a)) l)).
  { apply filter_In. split; [done|]. apply same_reaction_spec.
    injection Hpair as Hu He. done. }
  simpl in Hone.
  destruct (List.filter (same_reaction mid (re_userId a) (re_emoji a)) l);
    [by destruct Hin' | simpl in Hone; lia].
Qed.

Lemma filter_map_comm {A B} (f : A → B) (g : B → bool) (l : list A) :
  List.filter g (List.map f l) = List.map f (List.filter (fun x => g (f x)) l).
Proof.
  induction l as [|a l IH]; simpl; [done|].
  destruct (g (f a)); simpl; by rewrite IH.
Qed.

Lemma filter_comm {A} (f g : A → bool) (l : list A) :
  List.filter f (List.filter g l) = List.filter g (List.filter f l).
Proof.
  induction l as [|a l IH]; simpl; [done|].
  destruct (f a) eqn:Hf, (g a) eqn:Hg; simpl; rewrite ?Hf, ?Hg, ?IH; done.
Qed.


Lemma removed_leaves_no_reactor store messageId userId emoji r :
  In r (shown (Client.on_reaction_removed messageId userId emoji store) messageId) →
  Client.same_reactor userId emoji r = false.
Proof.
  unfold Client.on_reaction_removed, shown.
  destruct (store !! messageId) as [l|] eqn:Hl.
  - rewrite lookup_insert_eq. simpl. intros Hin.
    apply filter_In in Hin as [_ Hin]. by apply negb_true_iff.
  - rewrite Hl. done.
Qed.

(** X26. Undoing a reaction in the client: when the list of a message
    shows no entry of a user with an emoji, a [reaction_added] for
    them followed by the matching [reaction_removed] leaves the list
    as it was shown before, and after any [reaction_removed] no entry
    of that user with that emoji is left in the list. *)
Theorem client_add_then_remove store data :
  let messageId := Client.e_messageId data in
  let userId := Client.e_userId data in
  let emoji := Client.e_emoji data in
  (existsb (Client.same_reactor userId emoji) (shown store messageId) = false →
   shown (Client.on_reaction_removed messageId userId emoji
            (Client.on_reaction_added data store)) messageId
   = shown store messageId)
  ∧ ∀ r, In r (shown (Client.on_reaction_removed messageId userId emoji store)
                     messageId) →
         Client.same_reactor userId emoji r = false.
Proof.
  simpl. split.
  - intros Hnone. rewrite on_reaction_added_spec, Hnone.
    unfold Client.on_reaction_removed. rewrite lookup_insert_eq, shown_insert.
    rewrite decide_True by done. rewrite List.filter_app. simpl.
    assert (Client.same_reactor (Client.e_userId data) (Client.e_emoji data) data
            = true) as -> by (by apply same_reactor_spec).
    simpl. rewrite app_nil_r. apply filter_none_id.
    by apply filter_nil_of_existsb.
  - intros r. apply removed_leaves_no_reactor.
Qed.

(** X27. The click on an emoji toggles on what the store shows: once the
    client has received [reaction_added] for its own user, the next
    [addReaction] with that message and emoji emits [remove_reaction],
    and once it has received the matching [reaction_removed] it emits
    [add_reaction] again, both for the current room. Without a user,
    a room or a connection nothing is emitted. *)
Theorem client_click_toggles
    userId roomId store id messageId emoji username walletAddress :
  Client.addReaction (Some userId) (Some roomId) true
    (Client.receive
       (EvReactionAdded id messageId userId emoji username walletAddress) store)
    messageId emoji
  = Some (remove_reaction messageId emoji roomId)
  ∧ Client.addReaction (Some userId) (Some roomId) true
      (Client.receive (EvReactionRemoved messageId userId emoji) store)
      messageId emoji
    = Some (add_reaction messageId emoji roomId)
  ∧ ∀ currentUser currentRoom connected store' op,
      Client.addReaction currentUser currentRoom connected store' messageId emoji
      = Some op →
      connected = true ∧ ∃ u r, currentUser = Some u ∧ currentRoom = Some r.
Proof.
  split; [|split].
  - unfold Client.addReaction, Client.receive.
    rewrite on_reaction_added_spec. simpl.
    fold (shown (if existsb (Client.same_reactor userId emoji) (shown store messageId)
                 then store
                 else <[messageId := shown store messageId
                          ++ [Client.mkEntry id messageId userId emoji
                                username walletAddress]]> store) messageId).
    destruct (List.find _ _) as [existing|] eqn:Hfind; [done|].
    apply find_existsb in Hfind.
    destruct (existsb _ (shown store messageId)) eqn:Hshown.
    + congruence.
    + rewrite shown_insert, decide_True in Hfind by done.
      rewrite existsb_app in Hfind. simpl in Hfind.
      assert (Client.same_reactor userId emoji
                (Client.mkEntry id messageId userId emoji username walletAddress)
              = true) as Hsame by (by apply same_reactor_spec).
      rewrite Hsame, orb_true_r in Hfind. discriminate.
  - unfold Client.addReaction, Client.receive.
    fold (shown (Client.on_reaction_removed messageId userId emoji store) messageId).
    destruct (List.find _ _) as [existing|] eqn:Hfind; [|done].
    apply find_some in Hfind as [Hin Hsame].
    apply removed_leaves_no_reactor in Hin. congruence.
  - intros currentUser currentRoom connected store' op.
    unfold Client.addReaction.
    destruct currentUser as [u|], currentRoom as [r|], connected; try discriminate.
    intros _. split; [done|]. by exists u, r.
Qed.

(** ** The invariants, for every reachable state *)


(** ** The further properties at concrete inputs *)


Lemma reachable_wallet_identifies_user_witness :
  getUserByWallet (db demo) "wallet-2" = Some (mkUser 2 (Some "bob") "wallet-2" 2200).
Proof.
  apply (reachable_wallet_identifies_user (H := toy_crypto) demo
           (mkUser 2 (Some "bob") "wallet-2" 2200) demo_reachable).
  vm_compute. right. left. reflexivity.
Defined.

Lemma reachable_lookup_by_id_witness :
  (∀ user, In user (users (db demo)) →
           getUser (db demo) (u_id user) = Some user
           ∧ 0 < u_id user < users_seq (db demo))
  ∧ (∀ room, In room (rooms (db demo)) →
             getRoom (db demo) (r_id room) = Some room
             ∧ r_id room < rooms_seq (db demo))
  ∧ (∀ m, In m (messages (db demo)) → m_id m < messages_seq (db demo))
  ∧ NoDup (List.map m_id (messages (db demo)))
  ∧ NoDup (List.map re_id (reactions (db demo))).
Proof. exact (reachable_lookup_by_id (H := toy_crypto) demo demo_reachable). Defined.


Lemma reachable_references_witness :
  (∀ re, In re (reactions (db demo)) →
         (∃ m, In m (messages (db demo)) ∧ m_id m = re_messageId re)
         ∧ user_exists (db demo) (re_userId re) = true)
  ∧ (∀ m, In m (messages (db demo)) →
          room_exists (db demo) (m_roomId m) = true
          ∧ user_exists (db demo) (m_userId m) = true)
  ∧ (∀ rm, In rm (roomMembers (db demo)) →
           room_exists (db demo) (rm_roomId rm) = true
           ∧ user_exists (db demo) (rm_userId rm) = true)
  ∧ (∀ room uid, In room (rooms (db demo)) → r_createdBy room = Some uid →
                 user_exists (db demo) uid = true).
Proof. exact (reachable_references (H := toy_crypto) demo demo_reachable). Defined.

Lemma deleteExpiredMessages_twice_witness :
  let d1 := snd (deleteExpiredMessages 6000 (db one_expiring)) in
  (∀ m, In m (messages d1) → expired 6000 m = false)
  ∧ deleteExpiredMessages 6000 d1 = (Ret 0%nat, d1).
Proof.
  refine (deleteExpiredMessages_twice 6000 (db one_expiring) 1%nat _ _).
  reflexivity.
Defined.

Lemma swept_history_has_no_expired_witness :
  let d1 := snd (deleteExpiredMessages 6000 (db one_expiring)) in
  (∀ m, In m (getRoomMessages d1 1) → expired 6000 m = false)
  ∧ (∀ m, In m (room_rows (db one_expiring) 1) → expired 6000 m = false →
          In m (room_rows d1 1)).
Proof.
  refine (swept_history_has_no_expired 6000 (db one_expiring) 1%nat _ 1 _).
  reflexivity.
Defined.

Lemma removeReaction_after_addReaction_witness :
  let d1 := snd (addReaction 4500 1 1 "+1" (db one_expiring)) in
  let '(removed, d2) := removeReaction 1 1 "+1" d1 in
  removed = true
  ∧ rows_for d2 1 1 "+1" = []
  ∧ reactions d2
    = List.filter (fun re => negb (same_reaction 1 1 "+1" re))
                  (reactions (db one_expiring)).
Proof.
  refine (removeReaction_after_addReaction 4500 1 1 "+1" (db one_expiring) _ _);
    reflexivity.
Defined.

Lemma posted_message_is_last_in_history_witness :
  last (getRoomMessages (snd (createMessage 7000 1 1 "hi" None (db one_expiring))) 1)
  = Some (mkMessage 2 1 1 "hi" 7000 None)
  ∧ m_createdAt (mkMessage 2 1 1 "hi" 7000 None) = 7000.
Proof.
  refine (posted_message_is_last_in_history 7000 1 1 "hi" None (db one_expiring)
            (mkMessage 2 1 1 "hi" 7000 None) _ _ _).
  - reflexivity.
  - intros m Hm. vm_compute in Hm. destruct Hm as [<- | []]. reflexivity.
Defined.


Lemma auth_binds_and_joins_public_room_witness :
  let user := mkUser 1 (Some "User_wallet") "wallet-1" 2000 in
  let '(s', out) := run (on_auth 5000 "socket-3" "session-1") demo in
  let userRooms := getUserRooms (db s') 1 in
  socketToUser s' = <["socket-3" := 1]> (socketToUser demo)
  ∧ out = [(ToSocket "socket-3",
            EvAuthSuccess 1 (u_username user) (u_walletAddress user) userRooms);
           (ToAllExceptSender "socket-3",
            EvUserOnline 1 (u_username user) (u_walletAddress user))]
  ∧ (∃ publicRoom, In publicRoom userRooms ∧ r_isPublic publicRoom = true)
  ∧ (∀ room, In room userRooms → ("socket-3", pretty (r_id room)) ∈ socketRooms s')
  ∧ users (db s') = users (db demo) ∧ messages (db s') = messages (db demo).
Proof.
  refine (auth_binds_and_joins_public_room 5000 "socket-3" "session-1" demo 1
            (mkUser 1 (Some "User_wallet") "wallet-1" 2000) _ _ _);
    [vm_compute; reflexivity | discriminate | vm_compute; reflexivity].
Defined.

Lemma auth_again_is_idempotent_witness :
  let '(s1, out1) := run (on_auth 5000 "socket-3" "session-1") demo in
  let '(s2, out2) := run (on_auth 5100 "socket-3" "session-1") s1 in
  db s2 = db s1 ∧ out2 = out1 ∧ socketToUser s2 = socketToUser s1.
Proof.
  refine (auth_again_is_idempotent 5000 5100 "socket-3" "session-1" demo 1
            (mkUser 1 (Some "User_wallet") "wallet-1" 2000) _ _ _);
    [vm_compute; reflexivity | discriminate | vm_compute; reflexivity].
Defined.

Lemma auth_binds_only_the_session_user_witness :
  socketToUser demo !! "socket-3" = Some 2
  ∨ ("socket-3" = "socket-3" ∧ sessions demo !! "session-2" = Some 2
     ∧ user_exists (db demo) 2 = true).
Proof.
  pose proof (auth_binds_only_the_session_user 5000 "socket-3" "session-2" demo)
    as Hthm.
  destruct (run (on_auth 5000 "socket-3" "session-2") demo) as [s' out] eqn:Hrun.
  apply Hthm.
  replace s' with (fst (run (on_auth 5000 "socket-3" "session-2") demo))
    by (by rewrite Hrun).
  vm_compute. reflexivity.
Defined.

Lemma disconnect_unbinds_witness :
  let '(s', out) := run (on_disconnect "socket-1") demo in
  socketToUser s' = delete "socket-1" (socketToUser demo)
  ∧ db s' = db demo ∧ sessions s' = sessions demo
  ∧ socketRooms s' = socketRooms demo
  ∧ out = match getUser (db demo) 1 with
          | Some user => [(ToAllExceptSender "socket-1",
                           EvUserOffline 1 (u_username user))]
          | None => []
          end
  ∧ ∀ now op,
      run (on_room_op now "socket-1" op) s'
      = (s', match op with
             | typing _ | stop_typing _ => []
             | _ => [(ToSocket "socket-1", EvError "Not authenticated")]
             end).
Proof.
  refine (disconnect_unbinds "socket-1" demo 1 _ _);
    [vm_compute; reflexivity | discriminate].
Defined.

Lemma create_room_makes_creator_member_witness :
  let '(s', out) := run (on_create_room 5000 "socket-1" None (Some true)) demo in
  ∃ room,
    out = [(ToSocket "socket-1", EvRoomCreated room)]
    ∧ rooms (db s') = rooms (db demo) ++ [room]
    ∧ r_id room = rooms_seq (db demo)
    ∧ r_isPublic room = false
    ∧ r_isGroup room = default false (Some true)
    ∧ r_createdBy room = Some 1
    ∧ (@None string = None ∨ @None string = Some "" → r_name room = "New Chat")
    ∧ isRoomMember (db s') (r_id room) 1 = true
    ∧ In room (getUserRooms (db s') 1)
    ∧ ("socket-1", pretty (r_id room)) ∈ socketRooms s'.
Proof.
  refine (create_room_makes_creator_member 5000 "socket-1" None (Some true) demo 1
            _ _ _);
    [vm_compute; reflexivity | discriminate | vm_compute; reflexivity].
Defined.

Lemma join_room_admits_any_user_witness :
  r_isPublic <$> getRoom (db crowd) 2 = Some false
  ∧ isRoomMember (db crowd) 2 3 = false
  ∧ let '(s', out) := run (on_join_room 5000 "socket-3" 2) crowd in
    match getRoom (db crowd) 2 with
    | Some room =>
        isRoomMember (db s') 2 3 = true
        ∧ ("socket-3", pretty 2) ∈ socketRooms s'
        ∧ (isRoomMember (db crowd) 2 3 = true → db s' = db crowd)
        ∧ (isRoomMember (db crowd) 2 3 = false →
           ∃ row, roomMembers (db s') = roomMembers (db crowd) ++ [row]
                  ∧ rm_roomId row = 2 ∧ rm_userId row = 3)
        ∧ rooms (db s') = rooms (db crowd)
        ∧ messages (db s') = messages (db crowd)
    | None =>
        s' = crowd ∧ out = [(ToSocket "socket-3", EvError "Room not found")]
    end.
Proof.
  split; [vm_compute; reflexivity|]. split; [vm_compute; reflexivity|].
  refine (join_room_admits_any_user 5000 "socket-3" 2 crowd 3 _ _ _);
    [vm_compute; reflexivity | discriminate | vm_compute; reflexivity].
Defined.



Lemma nonce_request_overwrites_witness :
  let s1 := fst (post_auth_nonce (H := toy_crypto) 2000 "abc" "wallet-1" init) in
  let '(s2, r2) := post_auth_nonce (H := toy_crypto) 3000 "def" "wallet-1" s1 in
  s2 = fst (post_auth_nonce (H := toy_crypto) 3000 "def" "wallet-1" init)
  ∧ nonceStore s2 !! "wallet-1"
    = Some (mkChallenge "def" (challenge_message "def" "wallet-1") 3000)
  ∧ nonceStore s2 !! "wallet-2" = nonceStore init !! "wallet-2"
  ∧ r2 = mkResponse 200 (BodyNonce (challenge_message "def" "wallet-1") "def").
Proof.
  pose proof (nonce_request_overwrites (H := toy_crypto)
                2000 "abc" 3000 "def" "wallet-1" init) as Hthm.
  simpl in Hthm |- *.
  destruct Hthm as (Hs2 & Hstored & Hothers & Hr2).
  split; [exact Hs2|]. split; [exact Hstored|]. split; [|exact Hr2].
  apply Hothers. discriminate.
Defined.


Lemma verify_provisions_once_witness :
  let '(s', r) := post_auth_verify (H := toy_crypto)
                    2000 "session-1" "wallet-1" "ok" None challenged in
  ∃ user,
    body r = BodyUser user
    ∧ u_walletAddress user = "wallet-1"
    ∧ sessions s' = <["session-1" := u_id user]> (sessions challenged)
    ∧ nonceStore s' = delete "wallet-1" (nonceStore challenged)
    ∧ match getUserByWallet (db challenged) "wallet-1" with
      | Some stored => user = stored ∧ db s' = db challenged
      | None =>
          user = mkUser (users_seq (db challenged))
                        (Some (displayName None "wallet-1")) "wallet-1" 2000
          ∧ users (db s') = users (db challenged) ++ [user]
          ∧ (@None string = None ∨ @None string = Some "" →
             u_username user = Some ("User_" +:+ String.substring 0 6 "wallet-1"))
      end.
Proof.
  pose proof (verify_provisions_once (H := toy_crypto)
                2000 "session-1" "wallet-1" "ok" None challenged) as Hthm.
  destruct (post_auth_verify 2000 "session-1" "wallet-1" "ok" None challenged)
    as [s' r] eqn:Hrun.
  apply Hthm.
  replace r with (snd (post_auth_verify (H := toy_crypto)
                         2000 "session-1" "wallet-1" "ok" None challenged))
    by (by rewrite Hrun).
  vm_compute. reflexivity.
Defined.

Lemma ai_chat_answers_witness :
  ∃ reply userId text,
    ai_body (post_ai_chat (H := toy_assistant) "session-1" (Some "hello") demo)
    = AiReply reply
    ∧ reply ≠ ""
    ∧ sessions demo !! "session-1" = Some userId ∧ userId ≠ 0
    ∧ Some "hello" = Some text ∧ text ≠ "".
Proof.
  apply (proj1 (ai_chat_answers (H := toy_assistant)
                  "session-1" (Some "hello") demo)).
  vm_compute. reflexivity.
Defined.

Lemma client_store_stays_distinct_witness :
  let events := [EvReactionAdded 1 1 2 "+1" (Some "bob") "wallet-2";
                 EvReactionAdded 1 1 2 "+1" (Some "bob") "wallet-2";
                 EvReactionRemoved 1 2 "+1"] in
  distinct_reactors (foldl (fun st e => Client.receive e st) ∅ events)
  ∧ ∀ e, edits_store e = true →
         Client.receive e (Client.receive e ∅) = Client.receive e ∅.
Proof.
  refine (client_store_stays_distinct ∅ _ _ _); [|reflexivity].
  intros messageId list Hlist. rewrite lookup_empty in Hlist. discriminate.
Defined.


Lemma client_add_then_remove_witness :
  let data := Client.mkEntry 1 1 2 "+1" (Some "bob") "wallet-2" in
  shown (Client.on_reaction_removed 1 2 "+1" (Client.on_reaction_added data ∅)) 1
  = shown ∅ 1.
Proof.
  apply (proj1 (client_add_then_remove ∅
                  (Client.mkEntry 1 1 2 "+1" (Some "bob") "wallet-2"))).
  reflexivity.
Defined.

Lemma client_click_toggles_witness :
  true = true ∧ ∃ u r, Some 2 = Some u ∧ Some 1 = Some r.
Proof.
  apply (proj2 (proj2 (client_click_toggles 2 1 ∅ 1 1 "+1" (Some "bob") "wallet-2"))
           (Some 2) (Some 1) true ∅ (add_reaction 1 "+1" 1)).
  reflexivity.
Defined.
